(** * RU Events Hub: the getINVOLVED connector

    A shallow embedding of [backend/connectors/getinvolved.py] (and of the
    kill-switch reset of [backend/run_scraper.py]) together with the
    properties of the fetch / normalise / reconcile pipeline.

    Conventions of the embedding.
    - A Python [str] is a [string] of bytes (the UTF-8 encoding of the text);
      [str.lower], [str.strip] and the regular expression class [\s] are
      modelled on the ASCII range, where they agree with Python.
    - A Python [int] is a [Z]; [None] is [None] of an [option].
    - A [dict] with string keys is a [gmap string _]; a dict whose insertion
      order is observed (the keyword table) is an association list.
    - Exceptions are values of [Exn]; effectful code lives in the monad [M]
      over the [World] (state file, store table, clock, effect trace).
    - [logger] calls have no influence on results and are left out. *)

From Stdlib Require Import ZArith List String Ascii Bool Lia.
From stdpp Require Import base decidable option list gmap strings pretty.

Local Open Scope Z_scope.

(* ===================================================================== *)
(** * Python string primitives                                            *)
(* ===================================================================== *)

Module Str.

(** [c.lower()] on one ASCII character. *)
Definition lower_char (c : ascii) : ascii :=
  let n := N_of_ascii c in
  if ((65 <=? n) && (n <=? 90))%N then ascii_of_N (n + 32) else c.

(** [s.lower()]. *)
Fixpoint lower (s : string) : string :=
  match s with
  | EmptyString => EmptyString
  | String c rest => String (lower_char c) (lower rest)
  end.

(** [s.startswith(p)]. *)
Fixpoint startswith (s p : string) {struct p} : bool :=
  match p, s with
  | EmptyString, _ => true
  | String _ _, EmptyString => false
  | String a p', String b s' => if ascii_dec a b then startswith s' p' else false
  end.

(** [p in s] for strings: [p] occurs as a contiguous substring of [s]. *)
Fixpoint contains (s p : string) : bool :=
  startswith s p ||
  match s with
  | EmptyString => false
  | String _ rest => contains rest p
  end.

(** [c.isspace()] on the ASCII range: TAB, LF, VT, FF, CR, the four
    separators 0x1c-0x1f, and the space. The [\s] class of [re] is the same
    set there. *)
Definition isspace (c : ascii) : bool :=
  let n := N_of_ascii c in
  (((9 <=? n) && (n <=? 13)) || ((28 <=? n) && (n <=? 31)) || (n =? 32))%N.

Fixpoint lstrip (s : string) : string :=
  match s with
  | EmptyString => EmptyString
  | String c rest => if isspace c then lstrip rest else s
  end.

(** [rstrip] keeps a character when it is not white space or when something
    that is kept follows it. *)
Fixpoint rstrip (s : string) : string :=
  match s with
  | EmptyString => EmptyString
  | String c rest =>
      match rstrip rest with
      | EmptyString => if isspace c then EmptyString else String c EmptyString
      | r => String c r
      end
  end.

(** [s.strip()]. *)
Definition strip (s : string) : string := rstrip (lstrip s).

(** [sep.join(l)]. *)
Fixpoint join (sep : string) (l : list string) : string :=
  match l with
  | [] => EmptyString
  | [x] => x
  | x :: rest => x +:+ sep +:+ join sep rest
  end.

(** Truthiness of a [str]: [bool(s)]. *)
Definition nonempty (s : string) : bool :=
  match s with EmptyString => false | _ => true end.

(** [s or None]. *)
Definition or_none (s : string) : option string :=
  if nonempty s then Some s else None.

End Str.

(* ===================================================================== *)
(** * Campus inference                                                    *)
(* ===================================================================== *)

Definition SOURCE : string := "getinvolved".
Definition API_URL : string :=
  "https://rutgers.campuslabs.com/engage/api/discovery/event/search".
Definition ICAL_URL : string :=
  "https://rutgers.campuslabs.com/engage/events/ical".
Definition PAGE_SIZE : Z := 100.
Definition MAX_FAILURES : Z := 3.

(** The keyword dictionary, in its declaration order (the order in which
    [CAMPUS_KEYWORDS.items()] yields it). *)
Definition CAMPUS_KEYWORDS : list (string * list string) :=
  [ ("College Ave",
     [ "Student Center"; "Scott Hall"; "College Ave"; "Voorhees"; "Old Queens";
       "Zimmerli"; "Hillel"; "Academic Building"; "Murray Hall"; "Demarest";
       "Paul Robeson"; "Hardenbergh"; "Clothier"; "Seminary"; "Eagleton";
       "CASC"; "Silvers"; "Catholic Center"; "Linguistic"; "Civic Square";
       "St. Peter"; "Little Theatre"; "Women's House";
       "Alexander Library"; "Nicholas Music"; "McCormick"; "Bloustein";
       "SC&I"; "RU Cinema"; "Art History"; "Loree"; "French Seminar";
       "Student Activities Center" ]);
    ("Livingston",
     [ "RAC"; "Jersey Mike"; "Tillett"; "Tillet"; "Livi"; "Livingston";
       "RBS"; "Ludwig"; "Lucy Stone"; "Hatchery"; "The Yard";
       "Graduate Student Lounge"; "The Cage"; "Richardson"; "DSC Lounge" ]);
    ("Busch",
     [ "Werblin"; "Busch"; "Hill Center"; "SERC";
       "BSC"; "BME"; "Biomedical Engineering"; "Serin"; "Richard Weeks";
       "Research Tower"; "Proteomics"; "Life Science"; "CoRE";
       "Rutgers Golf" ]);
    ("Cook/Douglass",
     [ "Cook"; "Douglass"; "Hickman"; "Passion Puddle";
       "Ruth Adams"; "Marine and Coastal Sciences"; "ENR";
       "Rutgers Botanical"; "ABE" ]) ].

Definition ONLINE_KEYWORDS : list string :=
  [ "zoom"; "online"; "virtual"; "teams"; "webinar" ].

Definition TBD_PATTERNS : list string :=
  [ "tbd"; "to be determined"; "to be announced"; "tba" ].

Definition OFF_CAMPUS_KEYWORDS : list string :=
  [ "Eastern Star Rehabilitation"; "Mitsuwa"; "Liberty Science Center";
    "United Nations"; "Utica University"; "Buccleuch"; "Johnson Park";
    "New Orleans"; "Jersey City"; "New York City"; "Newark" ].

(** The inner loop [for kw in keywords: if kw.lower() in loc_lower]. *)
Definition any_keyword (loc_lower : string) (keywords : list string) : bool :=
  existsb (fun kw => Str.contains loc_lower (Str.lower kw)) keywords.

(** The loop over [CAMPUS_KEYWORDS.items()]: the first campus one of whose
    keywords occurs. *)
Fixpoint first_campus (loc_lower : string) (table : list (string * list string))
  : option string :=
  match table with
  | [] => None
  | (campus, keywords) :: rest =>
      if any_keyword loc_lower keywords then Some campus
      else first_campus loc_lower rest
  end.

Definition infer_campus (location : option string) : string :=
  match location with
  | None => "Unknown"
  | Some loc =>
      if negb (Str.nonempty loc) then "Unknown" else
      let loc_lower := Str.lower loc in
      if existsb (fun pat => Str.startswith loc_lower pat) TBD_PATTERNS
      then "Unknown"
      else if existsb (fun kw => Str.contains loc_lower kw) ONLINE_KEYWORDS
      then "Online"
      else match first_campus loc_lower CAMPUS_KEYWORDS with
           | Some campus => campus
           | None =>
               if any_keyword loc_lower OFF_CAMPUS_KEYWORDS then "Off-Campus"
               else "Unknown"
           end
  end.

(* ===================================================================== *)
(** * HTML stripping                                                      *)
(* ===================================================================== *)

(** [[^>]*>] at the head of [s]: the length of the match. *)
Fixpoint tag_tail (s : string) : option nat :=
  match s with
  | EmptyString => None
  | String c rest =>
      if ascii_dec c ">"%char then Some 1%nat else S <$> tag_tail rest
  end.

(** [[^>]+>] at the head of [s], i.e. what must follow a ["<"] for
    [_HTML_TAG_RE = <[^>]+>] to match there: the length of the match. The
    class [[^>]] cannot run over a [">"], so the match ends at the first
    [">"], and there is none when that [">"] comes at once. *)
Definition tag_rest (s : string) : option nat :=
  match s with
  | EmptyString => None
  | String c rest =>
      if ascii_dec c ">"%char then None else S <$> tag_tail rest
  end.

(** [_HTML_TAG_RE.sub(" ", s)]: leftmost, non-overlapping matches replaced
    by one space. [skip] counts the characters of the current match that
    are still to be consumed. *)
Fixpoint sub_tags (skip : nat) (s : string) : string :=
  match s with
  | EmptyString => EmptyString
  | String c rest =>
      match skip with
      | S k => sub_tags k rest
      | O =>
          if ascii_dec c "<"%char then
            match tag_rest rest with
            | Some n => String " "%char (sub_tags n rest)
            | None => String c (sub_tags 0 rest)
            end
          else String c (sub_tags 0 rest)
      end
  end.

(** [_WHITESPACE_RE.sub(" ", s)] with [_WHITESPACE_RE = \s+]: every maximal
    run of white space becomes one space. [in_run] tells that the previous
    character belonged to the run already replaced. *)
Fixpoint sub_ws (in_run : bool) (s : string) : string :=
  match s with
  | EmptyString => EmptyString
  | String c rest =>
      if Str.isspace c
      then (if in_run then sub_ws true rest else String " "%char (sub_ws true rest))
      else String c (sub_ws false rest)
  end.

Definition strip_html (text : option string) : option string :=
  match text with
  | None => None
  | Some t =>
      if negb (Str.nonempty t) then None else
      let cleaned := sub_tags 0 t in
      let cleaned := Str.strip (sub_ws false cleaned) in
      Str.or_none cleaned
  end.

(* ===================================================================== *)
(** * SHA-256 and the stable event id                                     *)
(* ===================================================================== *)

Module Sha256.

Definition mask32 : Z := 0xffffffff.
Definition add32 (x y : Z) : Z := (x + y) mod 2 ^ 32.
Definition rotr (n x : Z) : Z :=
  Z.lor (Z.shiftr x n) (Z.land (Z.shiftl x (32 - n)) mask32).
Definition shr (n x : Z) : Z := Z.shiftr x n.
Definition xor3 (a b c : Z) : Z := Z.lxor (Z.lxor a b) c.

Definition Ch (x y z : Z) : Z :=
  Z.lxor (Z.land x y) (Z.land (Z.lxor x mask32) z).
Definition Maj (x y z : Z) : Z :=
  xor3 (Z.land x y) (Z.land x z) (Z.land y z).
Definition Sigma0 (x : Z) : Z := xor3 (rotr 2 x) (rotr 13 x) (rotr 22 x).
Definition Sigma1 (x : Z) : Z := xor3 (rotr 6 x) (rotr 11 x) (rotr 25 x).
Definition sigma0 (x : Z) : Z := xor3 (rotr 7 x) (rotr 18 x) (shr 3 x).
Definition sigma1 (x : Z) : Z := xor3 (rotr 17 x) (rotr 19 x) (shr 10 x).

(** The constants are defined as the standard defines them: the first 32
    bits of the fractional parts of the cube roots ([K]) and of the square
    roots ([H0]) of the first primes. *)
Definition is_prime (n : Z) : bool :=
  forallb (fun d => negb (n mod d =? 0))
          (filter (fun d => d * d <= n) (Z.of_nat <$> seq 2 16)).

Definition primes : list Z := filter (fun n => is_prime n = true) (Z.of_nat <$> seq 2 310).

(** The integer cube root of [n], between [lo] and [hi], by bisection. *)
Fixpoint cbrt_between (fuel : nat) (lo hi n : Z) : Z :=
  match fuel with
  | O => lo
  | S fuel' =>
      let mid := (lo + hi + 1) / 2 in
      if mid * mid * mid <=? n then cbrt_between fuel' mid hi n
      else cbrt_between fuel' lo (mid - 1) n
  end.

Definition frac_cbrt (p : Z) : Z :=
  cbrt_between 64 0 (2 ^ 40) (p * 2 ^ 96) mod 2 ^ 32.
Definition frac_sqrt (p : Z) : Z := Z.sqrt (p * 2 ^ 64) mod 2 ^ 32.

Definition K : list Z := Eval vm_compute in frac_cbrt <$> firstn 64 primes.

Definition H0 : list Z := Eval vm_compute in frac_sqrt <$> firstn 8 primes.

Definition bytes_of (s : string) : list Z :=
  map (fun c => Z.of_N (N_of_ascii c)) (list_ascii_of_string s).

(** Big-endian bytes of [x], [n] of them. *)
Fixpoint be_bytes (n : nat) (x : Z) : list Z :=
  match n with
  | O => []
  | S k => be_bytes k (x / 256) ++ [x mod 256]
  end.

(** The message followed by 0x80, zero bytes up to 56 modulo 64, and the
    bit length on eight bytes. *)
Definition pad (msg : list Z) : list Z :=
  let len := Z.of_nat (List.length msg) in
  let zeros := Z.to_nat ((55 - len) mod 64) in
  msg ++ [0x80] ++ repeat 0 zeros ++ be_bytes 8 (8 * len).

(** The sixteen big-endian words of a 64-byte block. *)
Fixpoint words_of (n : nat) (bs : list Z) : list Z :=
  match n, bs with
  | S k, b0 :: b1 :: b2 :: b3 :: rest =>
      (((b0 * 256 + b1) * 256 + b2) * 256 + b3) :: words_of k rest
  | _, _ => []
  end.

Fixpoint blocks_of (n : nat) (bs : list Z) : list (list Z) :=
  match n with
  | O => []
  | S k =>
      match bs with
      | [] => []
      | _ => words_of 16 (firstn 64 bs) :: blocks_of k (skipn 64 bs)
      end
  end.

Record regs := Regs { ra : Z; rb : Z; rc : Z; rd : Z;
                      re : Z; rf : Z; rg : Z; rh : Z }.

Definition round (r : regs) (k w : Z) : regs :=
  let t1 := add32 (add32 (add32 (add32 (rh r) (Sigma1 (re r)))
                                (Ch (re r) (rf r) (rg r))) k) w in
  let t2 := add32 (Sigma0 (ra r)) (Maj (ra r) (rb r) (rc r)) in
  Regs (add32 t1 t2) (ra r) (rb r) (rc r) (add32 (rd r) t1) (re r) (rf r) (rg r).

(** The 64 rounds over a sliding window of the message schedule: the head of
    [w] is W[t], and W[t+16] is appended from W[t+14], W[t+9], W[t+1], W[t]. *)
Fixpoint rounds (ks : list Z) (w : list Z) (r : regs) : regs :=
  match ks with
  | [] => r
  | k :: ks' =>
      let next := add32 (add32 (add32 (sigma1 (nth 14 w 0)) (nth 9 w 0))
                               (sigma0 (nth 1 w 0))) (nth 0 w 0) in
      rounds ks' (tl w ++ [next]) (round r k (nth 0 w 0))
  end.

Definition regs_of (h : list Z) : regs :=
  Regs (nth 0 h 0) (nth 1 h 0) (nth 2 h 0) (nth 3 h 0)
       (nth 4 h 0) (nth 5 h 0) (nth 6 h 0) (nth 7 h 0).

Definition compress (h : list Z) (block : list Z) : list Z :=
  let r0 := regs_of h in
  let r := rounds K block r0 in
  [ add32 (ra r0) (ra r); add32 (rb r0) (rb r);
    add32 (rc r0) (rc r); add32 (rd r0) (rd r);
    add32 (re r0) (re r); add32 (rf r0) (rf r);
    add32 (rg r0) (rg r); add32 (rh r0) (rh r) ].

(** The eight 32-bit words of the digest. *)
Definition digest (msg : list Z) : list Z :=
  let padded := pad msg in
  fold_left compress (blocks_of (List.length padded) padded) H0.

Definition hex_char (d : Z) : ascii :=
  if d <? 10 then ascii_of_N (Z.to_N (48 + d)) else ascii_of_N (Z.to_N (87 + d)).

(** [n] lower-case hexadecimal digits of [x], most significant first. *)
Fixpoint hex_digits (n : nat) (x : Z) : string :=
  match n with
  | O => EmptyString
  | S k => hex_digits k (x / 16) +:+ String (hex_char (x mod 16)) EmptyString
  end.

Fixpoint hex_words (ws : list Z) : string :=
  match ws with
  | [] => EmptyString
  | w :: rest => hex_digits 8 w +:+ hex_words rest
  end.

(** [hashlib.sha256(raw.encode()).hexdigest()]. *)
Definition hexdigest (raw : string) : string := hex_words (digest (bytes_of raw)).

End Sha256.

(** [s[:n]]. *)
Fixpoint str_take (n : nat) (s : string) : string :=
  match n, s with
  | S k, String c rest => String c (str_take k rest)
  | _, _ => EmptyString
  end.

Definition make_event_id (title start_time source : string) : string :=
  let raw := title +:+ "|" +:+ start_time +:+ "|" +:+ source in
  str_take 32 (Sha256.hexdigest raw).


(* ===================================================================== *)
(** * Exceptions and results                                              *)
(* ===================================================================== *)

(** The exceptions the connector tells apart: [requests.HTTPError] (whose
    [response] may be [None]) and every other subclass of [Exception],
    named by its class. [str(exc)] is the message. *)
Inductive Exn : Type :=
| HTTPError (status : option Z) (msg : string)
| PyError (cls msg : string).

Definition exn_str (e : Exn) : string :=
  match e with
  | HTTPError _ msg => msg
  | PyError _ msg => msg
  end.

(** The outcome of a call: a value, an exception, or no outcome at all (the
    page loop of the API fetcher has no bound of its own). *)
Inductive Res (A : Type) : Type :=
| Ok (a : A)
| Raise (e : Exn)
| Diverge.
Arguments Ok {A} a.
Arguments Raise {A} e.
Arguments Diverge {A}.

(** Errors the interpreter raises; their texts are abridged. *)
Definition AttributeError (what : string) : Exn := PyError "AttributeError" what.
Definition TypeError (what : string) : Exn := PyError "TypeError" what.

(* ===================================================================== *)
(** * Dates and times                                                     *)
(* ===================================================================== *)

(** [datetime.date]. *)
Record date := Date { d_year : Z; d_month : Z; d_day : Z }.

(** [datetime.datetime]; [tzinfo] is the UTC offset in seconds of an aware
    value and [None] for a naive one. *)
Record datetime := DateTime {
  year : Z; month : Z; day : Z;
  hour : Z; minute : Z; second : Z; microsecond : Z;
  tzinfo : option Z
}.

(** Days since 1970-01-01 of a proleptic Gregorian date, and back. *)
Definition days_from_civil (y m d : Z) : Z :=
  let y := if m <=? 2 then y - 1 else y in
  let era := y / 400 in
  let yoe := y - era * 400 in
  let doy := (153 * (if 2 <? m then m - 3 else m + 9) + 2) / 5 + d - 1 in
  let doe := yoe * 365 + yoe / 4 - yoe / 100 + doy in
  era * 146097 + doe - 719468.

Definition civil_from_days (z : Z) : Z * Z * Z :=
  let z := z + 719468 in
  let era := z / 146097 in
  let doe := z - era * 146097 in
  let yoe := (doe - doe / 1460 + doe / 36524 - doe / 146096) / 365 in
  let doy := doe - (365 * yoe + yoe / 4 - yoe / 100) in
  let mp := (5 * doy + 2) / 153 in
  let d := doy - (153 * mp + 2) / 5 + 1 in
  let m := if mp <? 10 then mp + 3 else mp - 9 in
  ((if m <=? 2 then yoe + era * 400 + 1 else yoe + era * 400), m, d).

(** [dt.astimezone(timezone.utc)] of an aware value with offset [off]: the
    same instant on the UTC clock. Python raises [OverflowError] when the
    result leaves the years 1..9999. *)
Definition astimezone_utc (dt : datetime) (off : Z) : Res datetime :=
  let secs := days_from_civil (year dt) (month dt) (day dt) * 86400
              + hour dt * 3600 + minute dt * 60 + second dt - off in
  let days := secs / 86400 in
  let rem := secs mod 86400 in
  let '(y, m, d) := civil_from_days days in
  if (1 <=? y) && (y <=? 9999) then
    Ok (DateTime y m d (rem / 3600) (rem mod 3600 / 60) (rem mod 60)
                 (microsecond dt) (Some 0))
  else Raise (PyError "OverflowError" "date value out of range").

(** [%0<width>d]. *)
Definition zpad (width : nat) (x : Z) : string :=
  let s := pretty x in
  String.string_of_list_ascii
    (repeat "0"%char (width - String.length s)) +:+ s.

(** [d.isoformat()] of a date. *)
Definition date_isoformat (y m d : Z) : string :=
  zpad 4 y +:+ "-" +:+ zpad 2 m +:+ "-" +:+ zpad 2 d.

(** [dt.isoformat()] of a value in UTC: the microseconds are printed only
    when they are not zero, and the offset is [+00:00]. *)
Definition isoformat_utc (dt : datetime) : string :=
  date_isoformat (year dt) (month dt) (day dt) +:+ "T" +:+
  zpad 2 (hour dt) +:+ ":" +:+ zpad 2 (minute dt) +:+ ":" +:+ zpad 2 (second dt) +:+
  (if microsecond dt =? 0 then "" else "." +:+ zpad 6 (microsecond dt)) +:+
  "+00:00".

(** What [_to_utc_iso] may be handed: [None], a [str], a [datetime], a plain
    [date], or an object that is none of these. *)
Inductive DtValue : Type :=
| DtNone
| DtStr (s : string)
| DtDateTime (dt : datetime)
| DtDate (d : date)
| DtOther.

(** [_to_utc_iso], over the lenient parser [dateutil_parser.parse] (which
    raises on text it cannot read: [None] here). An object without a
    [year] attribute fails in the [datetime(...)] constructor call. *)
Definition _to_utc_iso (parse : string → option datetime) (dt_value : DtValue)
  : Res (option string) :=
  let convert (dt : datetime) : Res (option string) :=
    let off := match tzinfo dt with None => 0 | Some off => off end in
    match astimezone_utc dt off with
    | Ok utc => Ok (Some (isoformat_utc utc))
    | Raise e => Raise e
    | Diverge => Diverge
    end in
  match dt_value with
  | DtNone => Ok None
  | DtStr s =>
      match parse s with
      | None => Ok None
      | Some dt => convert dt
      end
  | DtDateTime dt => convert dt
  | DtDate d =>
      convert (DateTime (d_year d) (d_month d) (d_day d) 0 0 0 0 (Some 0))
  | DtOther => Raise (AttributeError "object has no attribute 'year'")
  end.

(* ===================================================================== *)
(** * Data model                                                          *)
(* ===================================================================== *)

(** The canonical event: the dict both normalisers build, one field per key. *)
Record Event := mkEvent {
  event_id : string;
  source : string;
  title : string;
  description : option string;
  start_time : string;
  end_time : option string;
  location : option string;
  campus : string;
  organization : option string;
  category : option string;
  source_url : string;
  last_seen : string
}.

(** JSON values as the API record carries them: scalars, and lists of
    scalars. *)
Inductive scalar : Type :=
| SNone
| SBool (b : bool)
| SInt (z : Z)
| SStr (s : string).

Inductive pyval : Type :=
| PScalar (v : scalar)
| PList (l : list scalar).

(** [bool(v)]. *)
Definition truthy_scalar (v : scalar) : bool :=
  match v with
  | SNone => false
  | SBool b => b
  | SInt z => negb (z =? 0)
  | SStr s => Str.nonempty s
  end.

Definition truthy (v : pyval) : bool :=
  match v with
  | PScalar v => truthy_scalar v
  | PList l => match l with [] => false | _ => true end
  end.

(** [a or b]. *)
Definition por (a b : pyval) : pyval := if truthy a then a else b.

(** [str(v)], as an f-string renders a scalar. *)
Definition scalar_str (v : scalar) : string :=
  match v with
  | SNone => "None"
  | SBool true => "True"
  | SBool false => "False"
  | SInt z => pretty z
  | SStr s => s
  end.

Definition PStr (s : string) : pyval := PScalar (SStr s).
Definition PNone : pyval := PScalar SNone.

(** A raw record of the Campus Labs API: [raw.get(key)] for each key the
    normaliser reads ([None] when the key is missing). *)
Record ApiRaw := mkApiRaw {
  raw_name : pyval;
  raw_startsOn : pyval;
  raw_endsOn : pyval;
  raw_location : pyval;
  raw_organizationName : pyval;
  raw_organizationId : pyval;
  raw_categoryNames : pyval;
  raw_categoryName : pyval;
  raw_id : scalar;
  raw_description : pyval
}.

(** A component of a parsed calendar: its [name] and [component.get(key)]
    for the keys the normaliser reads; the two date properties carry their
    [.dt]. *)
Record Component := mkComponent {
  comp_name : string;
  SUMMARY : option string;
  DTSTART : option DtValue;
  DTEND : option DtValue;
  LOCATION : option string;
  DESCRIPTION : option string;
  URL : option string
}.

(** The entry of one source in [state.json]; a field is [None] when its key
    is missing (or, for the two timestamps, null). *)
Record SourceState := mkSourceState {
  consecutive_failures : option Z;
  kill_switch : option bool;
  last_success : option string;
  last_attempt : option string
}.

(** [state.json] as the file system holds it. *)
Inductive StateFile : Type :=
| FileMissing                                   (* [STATE_FILE.exists()] is false *)
| FileUnreadable                                (* [read_text] raises [OSError] *)
| FileNotJson                                   (* [json.loads] raises [JSONDecodeError] *)
| FileJson (doc : gmap string SourceState).

(** The summary dict [run] returns; [source_used] is its key ["source"]. *)
Record Result := mkResult {
  fetched : Z;
  inserted : Z;
  updated : Z;
  source_used : string;
  error : option string
}.

(** What a run does to the outside world, in order. *)
Inductive Effect : Type :=
| ApiRequest (endsAfter : string) (skip : Z)
| IcalRequest
| Sleep
| StoreCount
| StoreSelect (ids : list string)
| StoreUpsert (rows : list Event)
| StateWrite (doc : gmap string SourceState).

(** The mutable world: the state file, the [events] table keyed by its
    unique column [event_id], the number of clock readings so far, and the
    effects performed so far (oldest first). *)
Record World := mkWorld {
  state_file : StateFile;
  table : gmap string Event;
  ticks : nat;
  trace : list Effect
}.

(** A reply to an HTTP request: no reply at all ([requests.get] raises), or a
    status and a body. *)
Inductive HttpReply (B : Type) : Type :=
| NoReply (e : Exn)
| Reply (status : Z) (body : B).
Arguments NoReply {B} e.
Arguments Reply {B} status body.

(** The decoded body of an API page: not JSON ([resp.json()] raises), a JSON
    list, or a JSON object with its keys [value], [totalItems] and
    [@odata.count]. *)
Inductive ApiBody : Type :=
| BodyNotJson (e : Exn)
| BodyList (l : list ApiRaw)
| BodyObject (value : option (list ApiRaw)) (totalItems odata_count : option Z).

(** The body of the feed: rejected by [Calendar.from_ical], or the components
    [cal.walk()] yields. *)
Inductive IcalBody : Type :=
| BadCalendar (e : Exn)
| Calendar (components : list Component).

(** What one run meets outside the process. *)
Record Env := mkEnv {
  clock : nat → datetime;              (* successive [datetime.now(timezone.utc)] *)
  dateutil_parse : string → option datetime;
  api_get : Z → HttpReply ApiBody;     (* the reply to the page at offset [skip] *)
  ical_get : HttpReply IcalBody;
  http_error_text : Z → string;        (* the message of the [HTTPError] of a status *)
  store_count_fault : option Exn;      (* the store call raises *)
  store_select_fault : option Exn;
  store_upsert_fault : option Exn
}.

(* ===================================================================== *)
(** * The monad of effectful code                                         *)
(* ===================================================================== *)

Definition M (A : Type) : Type := World → Res A * World.

Definition ret {A} (a : A) : M A := fun w => (Ok a, w).
Definition raise {A} (e : Exn) : M A := fun w => (Raise e, w).
Definition diverge {A} : M A := fun w => (Diverge, w).

Definition bind {A B} (m : M A) (k : A → M B) : M B :=
  fun w =>
    match m w with
    | (Ok a, w') => k a w'
    | (Raise e, w') => (Raise e, w')
    | (Diverge, w') => (Diverge, w')
    end.

(** [try: m  except Exception as exc: handler(exc)]. *)
Definition try_except {A} (m : M A) (handler : Exn → M A) : M A :=
  fun w =>
    match m w with
    | (Raise e, w') => handler e w'
    | r => r
    end.

Definition lift {A} (r : Res A) : M A := fun w => (r, w).

Notation "x <~ m ;; k" := (bind m (fun x => k))
  (at level 100, m at next level, right associativity).
Notation "m1 ;;; m2" := (bind m1 (fun _ => m2))
  (at level 100, right associativity).

Definition emit (e : Effect) : M unit :=
  fun w => (Ok tt, mkWorld (state_file w) (table w) (ticks w) (trace w ++ [e])).

(* ===================================================================== *)
(** * The connector                                                       *)
(* ===================================================================== *)

Section Connector.

Context (env : Env).

(** [datetime.now(timezone.utc)]: the next reading of the clock. *)
Definition now : M datetime :=
  fun w => (Ok (clock env (ticks w)),
            mkWorld (state_file w) (table w) (S (ticks w)) (trace w)).

(** [datetime.now(timezone.utc).isoformat()]. *)
Definition now_iso : M string := t <~ now ;; ret (isoformat_utc t).

(** ** State and kill switch *)

Definition DEFAULT_STATE : gmap string SourceState :=
  {[ SOURCE := mkSourceState (Some 0) (Some false) None None ]}.

(** [_load_state]: the parsed document when the file exists, can be read and
    is JSON; the default document otherwise. *)
Definition _load_state : M (gmap string SourceState) :=
  fun w =>
    match state_file w with
    | FileJson doc => (Ok doc, w)
    | FileMissing | FileUnreadable | FileNotJson => (Ok DEFAULT_STATE, w)
    end.

(** [_save_state]: the file now holds the document (writing the file is
    taken to succeed). *)
Definition _save_state (state : gmap string SourceState) : M unit :=
  emit (StateWrite state) ;;;
  fun w => (Ok tt, mkWorld (FileJson state) (table w) (ticks w) (trace w)).

(** The empty dict [{}] of [state.setdefault(SOURCE, {})]. *)
Definition empty_source : SourceState := mkSourceState None None None None.

Definition _record_failure (state : gmap string SourceState)
  : M (gmap string SourceState) :=
  let s := default empty_source (state !! SOURCE) in
  let n := default 0 (consecutive_failures s) + 1 in
  t <~ now_iso ;;
  let ks := if MAX_FAILURES <=? n then Some true else kill_switch s in
  let state := <[SOURCE := mkSourceState (Some n) ks (last_success s) (Some t)]> state in
  _save_state state ;;;
  ret state.

Definition _record_success (state : gmap string SourceState)
  : M (gmap string SourceState) :=
  t <~ now_iso ;;
  let state := <[SOURCE := mkSourceState (Some 0) (Some false) (Some t) (Some t)]> state in
  _save_state state ;;;
  ret state.

(** [_reset_kill_switch] of [run_scraper.py]: every source of the document
    is unblocked; nothing happens when there is no file, and a file that
    cannot be read or parsed makes the call raise. *)
Definition _reset_kill_switch : M unit :=
  fun w =>
    match state_file w with
    | FileMissing => (Ok tt, w)
    | FileUnreadable => (Raise (PyError "OSError" "cannot read state.json"), w)
    | FileNotJson => (Raise (PyError "JSONDecodeError" "state.json is not JSON"), w)
    | FileJson doc =>
        let reset s := mkSourceState (Some 0) (Some false)
                                     (last_success s) (last_attempt s) in
        _save_state (reset <$> doc) w
    end.

(** ** Normalisation *)

(** The receiver of a [.strip()] call: only a [str] has the method. *)
Definition as_str (v : pyval) : Res string :=
  match v with
  | PScalar (SStr s) => Ok s
  | _ => Raise (AttributeError "object has no attribute 'strip'")
  end.

(** A JSON value handed to [_to_utc_iso]. *)
Definition json_dt (v : pyval) : DtValue :=
  match v with
  | PScalar SNone => DtNone
  | PScalar (SStr s) => DtStr s
  | _ => DtOther
  end.

(** [", ".join(c for c in categories if c)]. *)
Definition join_categories (categories : pyval) : Res string :=
  match categories with
  | PList l =>
      let kept := filter (fun c => truthy_scalar c = true) l in
      if forallb (fun c => match c with SStr _ => true | _ => false end) kept
      then Ok (Str.join ", " (map scalar_str kept))
      else Raise (TypeError "sequence item: expected str instance")
  | PScalar _ => Raise (TypeError "object is not iterable")
  end.

(** [strip_html] applied to a JSON value. *)
Definition strip_html_value (v : pyval) : Res (option string) :=
  if negb (truthy v) then Ok None else
  match v with
  | PScalar (SStr s) => Ok (strip_html (Some s))
  | _ => Raise (TypeError "expected string or bytes-like object")
  end.

Definition _normalize_api_event (raw : ApiRaw) : M (option Event) :=
  name <~ lift (as_str (por (raw_name raw) (PStr ""))) ;;
  let title := Str.strip name in
  if negb (Str.nonempty title) then ret None else
  start_iso <~ lift (_to_utc_iso (dateutil_parse env) (json_dt (raw_startsOn raw))) ;;
  match start_iso with
  | None => ret None
  | Some start_iso =>
  if negb (Str.nonempty start_iso) then ret None else
  end_iso <~ lift (_to_utc_iso (dateutil_parse env) (json_dt (raw_endsOn raw))) ;;
  loc <~ lift (as_str (por (raw_location raw) (PStr ""))) ;;
  let location := Str.or_none (Str.strip loc) in
  let org := por (por (raw_organizationName raw) (raw_organizationId raw)) (PStr "") in
  let org := match org with
             | PScalar (SInt z) => PStr (scalar_str (SInt z))
             | PScalar (SBool b) => PStr (scalar_str (SBool b))
             | _ => org
             end in
  org <~ lift (as_str org) ;;
  let org := Str.or_none (Str.strip org) in
  let categories := por (por (raw_categoryNames raw) (raw_categoryName raw)) (PList []) in
  let categories := match categories with
                    | PScalar (SStr s) => PList [SStr s]
                    | _ => categories
                    end in
  joined <~ lift (join_categories categories) ;;
  let category := Str.or_none (Str.strip joined) in
  let numeric_id := raw_id raw in
  let source_url :=
    if truthy_scalar numeric_id
    then "https://rutgers.campuslabs.com/engage/event/" +:+ scalar_str numeric_id
    else API_URL in
  let event_id := make_event_id title start_iso SOURCE in
  description <~ lift (strip_html_value (raw_description raw)) ;;
  seen <~ now_iso ;;
  ret (Some (mkEvent event_id SOURCE title description start_iso end_iso
                     location (infer_campus location) org category
                     source_url seen))
  end.

(** [str(component.get(key) or "").strip()]. *)
Definition ical_text (v : option string) : string := Str.strip (default "" v).

(** [prop.dt if prop else None]. *)
Definition ical_dt (prop : option DtValue) : DtValue := default DtNone prop.

Definition _normalize_ical_event (component : Component) : M (option Event) :=
  let title := ical_text (SUMMARY component) in
  if negb (Str.nonempty title) then ret None else
  start_iso <~ lift (_to_utc_iso (dateutil_parse env) (ical_dt (DTSTART component))) ;;
  match start_iso with
  | None => ret None
  | Some start_iso =>
  if negb (Str.nonempty start_iso) then ret None else
  end_iso <~ lift (_to_utc_iso (dateutil_parse env) (ical_dt (DTEND component))) ;;
  let location := Str.or_none (ical_text (LOCATION component)) in
  let description := strip_html (Str.or_none (ical_text (DESCRIPTION component))) in
  let url := default ICAL_URL (Str.or_none (ical_text (URL component))) in
  let event_id := make_event_id title start_iso SOURCE in
  seen <~ now_iso ;;
  ret (Some (mkEvent event_id SOURCE title description start_iso end_iso
                     location (infer_campus location) None None url seen))
  end.

(** ** Fetching *)

(** [requests.get(...)] followed by [resp.raise_for_status()]: the body of a
    reply whose status is not 4xx/5xx. *)
Definition raise_for_status {B} (r : HttpReply B) : M B :=
  match r with
  | NoReply e => raise e
  | Reply status body =>
      if (400 <=? status) && (status <? 600)
      then raise (HTTPError (Some status) (http_error_text env status))
      else ret body
  end.

(** [a or b] on an optional count. *)
Definition int_or (a : option Z) (b : Z) : Z :=
  match a with
  | Some n => if n =? 0 then b else n
  | None => b
  end.

(** [raw_list] and [total] of a decoded page. A JSON list has no [get]
    method, so the fallback to the list root is never reached. *)
Definition page_items (data : ApiBody) : Res (list ApiRaw * Z) :=
  match data with
  | BodyNotJson e => Raise e
  | BodyList _ => Raise (AttributeError "'list' object has no attribute 'get'")
  | BodyObject value totalItems odata_count =>
      let raw_list := default [] value in
      let total := int_or totalItems (int_or odata_count (Z.of_nat (length raw_list))) in
      Ok (raw_list, total)
  end.

(** [for raw in raw_list: ... events.append(normalized)]. *)
Fixpoint normalize_api_all (raw_list : list ApiRaw) (events : list Event)
  : M (list Event) :=
  match raw_list with
  | [] => ret events
  | raw :: rest =>
      normalized <~ _normalize_api_event raw ;;
      normalize_api_all rest
        (match normalized with Some e => events ++ [e] | None => events end)
  end.

(** The [while True] loop of [_fetch_via_api]; [fuel] bounds the number of
    pages requested, and running out of it is [Diverge]. *)
Fixpoint api_pages (fuel : nat) (today : string) (page : Z) (events : list Event)
  : M (list Event) :=
  match fuel with
  | O => diverge
  | S fuel' =>
      let skip := page * PAGE_SIZE in
      (if 0 <? page then emit Sleep else ret tt) ;;;
      emit (ApiRequest today skip) ;;;
      data <~ raise_for_status (api_get env skip) ;;
      items <~ lift (page_items data) ;;
      let raw_list := items.1 in
      let total := items.2 in
      events <~ normalize_api_all raw_list events ;;
      if (total <=? Z.of_nat (length events)) || bool_decide (raw_list = [])
      then ret events
      else api_pages fuel' today (page + 1) events
  end.

Definition _fetch_via_api (fuel : nat) : M (list Event) :=
  t <~ now ;;
  let today := date_isoformat (year t) (month t) (day t) in
  api_pages fuel today 0 [].

(** [for component in cal.walk(): if component.name == "VEVENT": ...]. *)
Fixpoint normalize_ical_all (components : list Component) (events : list Event)
  : M (list Event) :=
  match components with
  | [] => ret events
  | component :: rest =>
      if String.eqb (comp_name component) "VEVENT" then
        normalized <~ _normalize_ical_event component ;;
        normalize_ical_all rest
          (match normalized with Some e => events ++ [e] | None => events end)
      else normalize_ical_all rest events
  end.

Definition _fetch_via_ical : M (list Event) :=
  emit IcalRequest ;;;
  body <~ raise_for_status (ical_get env) ;;
  match body with
  | BadCalendar e => raise e
  | Calendar components => normalize_ical_all components []
  end.

(** ** The store *)

(** A call to the store fails when the environment says so. *)
Definition store_call (fault : option Exn) : M unit :=
  match fault with
  | Some e => raise e
  | None => ret tt
  end.

(** [select("id", count="exact").eq("source", SOURCE)]: the exact count of
    the rows of this source. *)
Definition store_count : M (option Z) :=
  emit StoreCount ;;;
  store_call (store_count_fault env) ;;;
  fun w => (Ok (Some (Z.of_nat (size (filter (λ kv, source kv.2 = SOURCE) (table w))))), w).

(** [select("event_id").in_("event_id", ids)]: the ids, among [ids], of the
    rows the table holds. *)
Definition store_select (ids : list string) : M (list string) :=
  emit (StoreSelect ids) ;;;
  store_call (store_select_fault env) ;;;
  fun w => (Ok (filter (λ k, k ∈ ids) (map_to_list (table w)).*1), w).

(** One row written under its key. *)
Definition upsert_row (t : gmap string Event) (e : Event) : gmap string Event :=
  <[event_id e := e]> t.

(** [upsert(rows, on_conflict="event_id")]: every row replaces the row of its
    key or is added. Postgres rejects a batch that names a key twice. *)
Definition store_upsert (rows : list Event) : M unit :=
  emit (StoreUpsert rows) ;;;
  store_call (store_upsert_fault env) ;;;
  if bool_decide (NoDup (event_id <$> rows)) then
    fun w => (Ok tt, mkWorld (state_file w) (foldl upsert_row (table w) rows)
                             (ticks w) (trace w))
  else raise (PyError "APIError"
                "ON CONFLICT DO UPDATE command cannot affect row a second time").

Definition _get_stored_count : M Z :=
  count <~ store_count ;;
  ret (int_or count 0).

(** The deduplication loop of [_upsert_events]: [seen] and [deduped] are its
    two accumulators. *)
Fixpoint dedup_events (seen : gset string) (deduped : list Event)
    (events : list Event) : list Event :=
  match events with
  | [] => deduped
  | e :: rest =>
      if bool_decide (event_id e ∉ seen)
      then dedup_events ({[event_id e]} ∪ seen) (deduped ++ [e]) rest
      else dedup_events seen deduped rest
  end.

Definition _upsert_events (events : list Event) : M (Z * Z) :=
  match events with
  | [] => ret (0, 0)
  | _ =>
      let deduped := dedup_events ∅ [] events in
      let events := deduped in
      let ids := event_id <$> events in
      existing <~ store_select ids ;;
      let existing_ids : gset string := list_to_set existing in
      let inserted :=
        Z.of_nat (length (filter (λ e, event_id e ∉ existing_ids) events)) in
      let updated := Z.of_nat (length events) - inserted in
      store_upsert events ;;;
      ret (inserted, updated)
  end.

(** ** The entry point *)

Definition kill_switch_msg (source_state : SourceState) : string :=
  "Kill switch is active for '" +:+ SOURCE +:+ "' after " +:+
  pretty (default 0 (consecutive_failures source_state)) +:+
  " consecutive failures. Reset backend/state.json manually to resume.".

Definition refuse_msg (stored : Z) : string :=
  "Fetched 0 events but " +:+ pretty stored +:+ " are stored. " +:+
  "Refusing to wipe data — check the source manually.".

(** The phases of [run] follow its banners. The early [return] of a handler
    is [inl]; falling out of the [try] statement is [inr]. *)

(** The fallback both handlers of the API attempt run. *)
Definition ical_fallback (state : gmap string SourceState)
  : M (Result + list Event * string) :=
  try_except
    (events <~ _fetch_via_ical ;; ret (inr (events, "ical")))
    (fun ical_exc =>
       _record_failure state ;;;
       ret (inl (mkResult 0 0 0 "none" (Some (exn_str ical_exc))))).

(** Fetch: the API, and the feed on [requests.HTTPError] as on any other
    [Exception]. *)
Definition fetch_phase (state : gmap string SourceState) (fuel : nat)
  : M (Result + list Event * string) :=
  try_except
    (events <~ _fetch_via_api fuel ;; ret (inr (events, "api")))
    (fun exc =>
       match exc with
       | HTTPError _ _ => ical_fallback state
       | PyError _ _ => ical_fallback state
       end).

(** Safety check and upsert. *)
Definition store_phase (state : gmap string SourceState)
    (events : list Event) (fetch_source : string) : M Result :=
  if bool_decide (length events = 0%nat) then
    stored <~ _get_stored_count ;;
    if 50 <=? stored then
      _record_failure state ;;;
      ret (mkResult 0 0 0 fetch_source (Some (refuse_msg stored)))
    else
      _record_success state ;;;
      ret (mkResult 0 0 0 fetch_source None)
  else
    done <~ try_except
              (counts <~ _upsert_events events ;; ret (inr counts))
              (fun exc =>
                 _record_failure state ;;;
                 ret (inl (mkResult (Z.of_nat (length events)) 0 0
                                    fetch_source (Some (exn_str exc))))) ;;
    match done with
    | inl result => ret result
    | inr (inserted, updated) =>
        _record_success state ;;;
        ret (mkResult (Z.of_nat (length events)) inserted updated
                      fetch_source None)
    end.

Definition run (fuel : nat) : M Result :=
  state <~ _load_state ;;
  let source_state := default empty_source (state !! SOURCE) in
  if default false (kill_switch source_state) then
    ret (mkResult 0 0 0 "none" (Some (kill_switch_msg source_state)))
  else
    got <~ fetch_phase state fuel ;;
    match got with
    | inl result => ret result
    | inr (events, fetch_source) => store_phase state events fetch_source
    end.

End Connector.

(* ===================================================================== *)
(** * The runner                                                          *)
(* ===================================================================== *)

(** What [main] of [run_scraper.py] reads from the command line and from the
    process environment. *)
Record Config := mkConfig {
  reset_kill_switch : bool;                 (* [--reset-kill-switch] *)
  SUPABASE_URL : option string;
  SUPABASE_SERVICE_KEY : option string;
  SUPABASE_ANON_KEY : option string
}.

(** [os.getenv(a) or os.getenv(b)]: an unset or empty variable is falsy. *)
Definition getenv_or (a b : option string) : option string :=
  if Str.nonempty (default "" a) then a else b.

(** [_build_supabase_client]: [true] when a client is built, [false] when
    the URL or the key is missing and the process exits with status 1. *)
Definition _build_supabase_client (cfg : Config) : bool :=
  let url := SUPABASE_URL cfg in
  let key := getenv_or (SUPABASE_SERVICE_KEY cfg) (SUPABASE_ANON_KEY cfg) in
  Str.nonempty (default "" url) && Str.nonempty (default "" key).

Section Runner.

Context (env : Env).

(** [main]: the exit status of the process (0 on return, 1 on
    [sys.exit(1)]); an exception that escapes is [Raise]. The clock is read
    before and after the run and once more by [_print_summary]; what is
    printed is left out like the log. *)
Definition main (cfg : Config) (fuel : nat) : M Z :=
  if reset_kill_switch cfg then
    _reset_kill_switch ;;;
    ret 0
  else if negb (_build_supabase_client cfg) then ret 1
  else
    start <~ now env ;;
    result <~ try_except (run env fuel)
                (fun exc => ret (mkResult 0 0 0 "none" (Some (exn_str exc)))) ;;
    finish <~ now env ;;
    stamp <~ now env ;;
    if Str.nonempty (default "" (error result)) then ret 1 else ret 0.

End Runner.

(* ===================================================================== *)
(** * Observations and scenarios                                          *)
(* ===================================================================== *)

(** The document a run loads from a world. *)
Definition loaded (w : World) : gmap string SourceState :=
  match state_file w with
  | FileJson doc => doc
  | FileMissing | FileUnreadable | FileNotJson => DEFAULT_STATE
  end.

(** The failure state a document records for this source:
    [Healthy(doc_failures)] when not [doc_blocked], [Blocked] otherwise. *)
Definition doc_state (doc : gmap string SourceState) : SourceState :=
  default empty_source (doc !! SOURCE).
Definition doc_failures (doc : gmap string SourceState) : Z :=
  default 0 (consecutive_failures (doc_state doc)).
Definition doc_blocked (doc : gmap string SourceState) : bool :=
  default false (kill_switch (doc_state doc)).

(** The failure state of a world is the one the next run will load. *)
Definition failure_state (w : World) : SourceState := doc_state (loaded w).
Definition failures (w : World) : Z := doc_failures (loaded w).
Definition blocked (w : World) : bool := doc_blocked (loaded w).

(** The number of rows of this source in a table. *)
Definition stored_rows (t : gmap string Event) : Z :=
  Z.of_nat (size (filter (λ kv, source kv.2 = SOURCE) t)).

(** Both fetches of a run started in [w] raise. *)
Definition both_fetches_fail (env : Env) (fuel : nat) (w : World) : Prop :=
  ∃ e1 w1 e2 w2,
    _fetch_via_api env fuel w = (Raise e1, w1) ∧
    _fetch_via_ical env w1 = (Raise e2, w2).

(** A fetch of a run started in [w] ends in [w'] with [events] from
    [fetch_source]: the API answers, or it raises and the feed answers. *)
Definition fetch_yields (env : Env) (fuel : nat) (w : World)
    (events : list Event) (fetch_source : string) (w' : World) : Prop :=
  (_fetch_via_api env fuel w = (Ok events, w') ∧ fetch_source = "api") ∨
  (∃ e w1, _fetch_via_api env fuel w = (Raise e, w1) ∧
           _fetch_via_ical env w1 = (Ok events, w') ∧ fetch_source = "ical").

Module Scenario.

Definition noon : datetime := DateTime 2025 3 1 12 0 0 0 (Some 0).

(** A parser that reads the two timestamps of the scenarios. *)
Definition parse (s : string) : option datetime :=
  if String.eqb s "2025-03-05T18:00:00Z" then Some (DateTime 2025 3 5 18 0 0 0 (Some 0))
  else if String.eqb s "2025-03-05T14:00:00-05:00"
       then Some (DateTime 2025 3 5 14 0 0 0 (Some (-18000)))
  else None.

Definition refused : Exn := PyError "ConnectionError" "connection refused".

(** Both sources are down. *)
Definition env_down : Env :=
  mkEnv (fun _ => noon) parse (fun _ => NoReply refused) (NoReply refused)
        (fun status => pretty status +:+ " Client Error") None None None.

Definition zoom_event : Component :=
  mkComponent "VEVENT" (Some "Chess Night")
    (Some (DtDateTime (DateTime 2025 3 5 18 0 0 0 (Some 0)))) None
    (Some "Zoom Meeting") (Some "<p>Weekly  chess</p>") None.

Definition tillett_event : Component :=
  mkComponent "VEVENT" (Some "Board Games")
    (Some (DtDateTime (DateTime 2025 3 6 14 0 0 0 (Some (-18000)))))
    (Some (DtDateTime (DateTime 2025 3 6 16 0 0 0 (Some (-18000)))))
    (Some "Tillett Hall, Livingston Campus") None None.

(** The API answers 429 and the feed carries two events. *)
Definition env_feed : Env :=
  mkEnv (fun _ => noon) parse (fun _ => Reply 429 (BodyObject None None None))
        (Reply 200 (Calendar [mkComponent "VCALENDAR" None None None None None None;
                               zoom_event; tillett_event]))
        (fun status => pretty status +:+ " Client Error") None None None.

(** The API answers with an empty page. *)
Definition env_empty : Env :=
  mkEnv (fun _ => noon) parse (fun _ => Reply 200 (BodyObject (Some []) None None))
        (NoReply refused)
        (fun status => pretty status +:+ " Client Error") None None None.

(** A first run: no state file, an empty table. *)
Definition fresh : World := mkWorld FileMissing ∅ 0 [].

(** A stored event of this source, distinguished by its number. *)
Definition stored_event (i : nat) : Event :=
  mkEvent (pretty i) SOURCE ("Event " +:+ pretty i) None
          "2025-02-01T10:00:00+00:00" None None "Unknown" None None
          ICAL_URL "2025-02-01T00:00:00+00:00".

(** A healthy world whose table holds 75 events of this source. *)
Definition stocked : World :=
  mkWorld (FileJson DEFAULT_STATE)
          (list_to_map ((fun i => (pretty i, stored_event i)) <$> seq 0 75)) 0 [].

(** A record of the API, and an API whose first page carries it twice and
    a record without title once, announces three items, and whose second
    page is empty. *)
Definition chess_raw : ApiRaw :=
  mkApiRaw (PStr "  Chess Night ") (PStr "2025-03-05T18:00:00Z")
           (PStr "2025-03-05T14:00:00-05:00") (PStr "Student Center, Room 2")
           (PStr "Chess Club") PNone (PList [SStr "Games"; SNone; SStr "Social"])
           PNone (SInt 1234) (PStr "<p>Weekly  chess</p>").

Definition untitled_raw : ApiRaw :=
  mkApiRaw (PStr "   ") (PStr "2025-03-05T18:00:00Z") PNone PNone PNone PNone
           PNone PNone SNone PNone.

Definition env_api : Env :=
  mkEnv (fun _ => noon) parse
        (fun skip => if skip =? 0
                     then Reply 200 (BodyObject (Some [chess_raw; untitled_raw; chess_raw])
                                                (Some 3) None)
                     else Reply 200 (BodyObject (Some []) None None))
        (NoReply refused)
        (fun status => pretty status +:+ " Client Error") None None None.


(** The same event on two pages with different text, around another one. *)
Definition repeated : list Event :=
  [ stored_event 1; stored_event 2;
    mkEvent (pretty 1%nat) SOURCE "Event 1 (moved)" None
            "2025-02-01T10:00:00+00:00" None (Some "Zoom") "Online" None None
            ICAL_URL "2025-02-01T00:00:00+00:00" ].

(** The events the feed of [env_feed] yields after its API failed. *)
Definition feed_events : list Event :=
  match _fetch_via_ical env_feed (_fetch_via_api env_feed 5 fresh).2 with
  | (Ok events, _) => events
  | _ => []
  end.

End Scenario.

(* ===================================================================== *)
(** * Vocabulary of the properties                                        *)
(* ===================================================================== *)

(** The events of a list that are the first with their id, in the order of
    the list: the head is kept and its id is struck from what the tail
    keeps. *)
Fixpoint first_occurrences (events : list Event) : list Event :=
  match events with
  | [] => []
  | e :: rest =>
      e :: filter (λ x, event_id x ≠ event_id e) (first_occurrences rest)
  end.

















(** A location matches a to-be-determined pattern when it starts, whatever
    the case of its letters, with one of [TBD_PATTERNS]. *)
Definition matches_tbd (location : string) : Prop :=
  ∃ head rest, location = head +:+ rest ∧ Str.lower head ∈ TBD_PATTERNS.


(** Effects of fetching: requests and the pause between pages. *)
Definition network_effect (e : Effect) : Prop :=
  match e with
  | ApiRequest _ _ | IcalRequest | Sleep => True
  | StoreCount | StoreSelect _ | StoreUpsert _ | StateWrite _ => False
  end.

(** A computation that leaves the state file and the table alone and whose
    only effects are network effects. *)
Definition fetch_only {A} (m : M A) : Prop :=
  ∀ w, state_file (m w).2 = state_file w ∧
       table (m w).2 = table w ∧
       ∃ l, trace (m w).2 = trace w ++ l ∧ Forall network_effect l.



(** What a result without error says about the run that returned it: the
    counts are those of the fetch and of the reconciliation, and success was
    recorded. *)
Definition successful_summary (env : Env) (events : list Event)
    (w1 : World) (r : Result) (w2 : World) : Prop :=
  fetched r = Z.of_nat (length events) ∧
  failures w2 = 0 ∧ blocked w2 = false ∧
  ((events = [] ∧ inserted r = 0 ∧ updated r = 0) ∨
   (events ≠ [] ∧
    ∃ w', _upsert_events env events w1 = (Ok (inserted r, updated r), w'))).






(* ===================================================================== *)
(** * Properties: strings                                                 *)
(* ===================================================================== *)

Local Arguments String.append !_ _ / : simpl nomatch.




Lemma lower_app (a b : string) :
  Str.lower (a +:+ b) = Str.lower a +:+ Str.lower b.
Proof. induction a as [|x a IH]; simpl; [done | by rewrite IH]. Qed.

Lemma startswith_app (p rest : string) : Str.startswith (p +:+ rest) p = true.
Proof.
  induction p as [|c p IH]; simpl; [done |].
  destruct (ascii_dec c c); [apply IH | congruence].
Qed.


(* ===================================================================== *)
(** * Properties: campus inference                                        *)
(* ===================================================================== *)

Lemma tbd_test_fires (location : string) :
  matches_tbd location →
  existsb (fun pat => Str.startswith (Str.lower location) pat) TBD_PATTERNS = true.
Proof.
  intros (head & rest & -> & Hin).
  apply existsb_exists. exists (Str.lower head). split.
  - by apply list_elem_of_In.
  - rewrite lower_app. apply startswith_app.
Qed.

(** C5. Every location that starts, case-insensitively, with a
    to-be-determined pattern is mapped to ["Unknown"], hence never to
    ["Off-Campus"], whatever follows the pattern. *)
Theorem infer_campus_tbd_unknown (location : string) :
  matches_tbd location →
  infer_campus (Some location) = "Unknown" ∧
  infer_campus (Some location) ≠ "Off-Campus".
Proof.
  intros Htbd.
  assert (infer_campus (Some location) = "Unknown") as ->; [| done].
  unfold infer_campus.
  destruct (negb (Str.nonempty location)); [done |].
  cbv zeta. by rewrite (tbd_test_fires _ Htbd).
Qed.

Lemma infer_campus_tbd_unknown_witness :
  matches_tbd "TBA: Newark or Zoom, Busch Student Center" ∧
  infer_campus (Some "TBA: Newark or Zoom, Busch Student Center") = "Unknown" ∧
  infer_campus (Some "TBA: Newark or Zoom, Busch Student Center") ≠ "Off-Campus".
Proof.
  assert (matches_tbd "TBA: Newark or Zoom, Busch Student Center") as H.
  { exists "TBA", ": Newark or Zoom, Busch Student Center".
    split; [reflexivity | vm_compute; set_solver]. }
  split; [exact H | exact (infer_campus_tbd_unknown _ H)].
Defined.

(** A pattern that only occurs further inside the text does not count. *)
Example infer_campus_tbd_inside :
  infer_campus (Some "Room tbd, Newark") = "Off-Campus".
Proof. reflexivity. Qed.

Example infer_campus_online : infer_campus (Some "Zoom Meeting") = "Online".
Proof. reflexivity. Qed.

Example infer_campus_livingston :
  infer_campus (Some "Tillett Hall, Livingston Campus") = "Livingston".
Proof. reflexivity. Qed.

(* ===================================================================== *)
(** * Properties: the event id                                            *)
(* ===================================================================== *)

Example sha256_empty :
  Sha256.hexdigest ""
  = "e3b0c44298fc1c149afbf4c8996fb92427ae41e4649b934ca495991b7852b855".
Proof. vm_compute. reflexivity. Qed.

Example sha256_abc :
  Sha256.hexdigest "abc"
  = "ba7816bf8f01cfea414140de5dae2223b00361a396177a9cb410ff61f20015ad".
Proof. vm_compute. reflexivity. Qed.

Example sha256_two_blocks :
  Sha256.hexdigest "abcdbcdecdefdefgefghfghighijhijkijkljklmklmnlmnomnopnopq"
  = "248d6a61d20638b8e5c026930c3e6039a33ce45964ff2167f6ecedd419db06c1".
Proof. vm_compute. reflexivity. Qed.










Example make_event_id_chess :
  make_event_id "Chess Night" "2025-03-01T18:00:00+00:00" SOURCE
  = "e3fb64a10348971ffec4bde54699980f".
Proof. vm_compute. reflexivity. Qed.


(* ===================================================================== *)
(** * Properties: the monad                                               *)
(* ===================================================================== *)

Lemma bind_ok {A B} (m : M A) (k : A → M B) w a w' :
  m w = (Ok a, w') → bind m k w = k a w'.
Proof. unfold bind. by intros ->. Qed.

Lemma bind_raise {A B} (m : M A) (k : A → M B) w e w' :
  m w = (Raise e, w') → bind m k w = (Raise e, w').
Proof. unfold bind. by intros ->. Qed.

Lemma fetch_only_ret {A} (a : A) : fetch_only (ret a).
Proof. intros w. simpl. repeat split. exists []. by rewrite app_nil_r. Qed.

Lemma fetch_only_lift {A} (r : Res A) : fetch_only (lift r).
Proof. intros w. simpl. repeat split. exists []. by rewrite app_nil_r. Qed.

Lemma fetch_only_raise {A} (e : Exn) : fetch_only (@raise A e).
Proof. intros w. simpl. repeat split. exists []. by rewrite app_nil_r. Qed.

Lemma fetch_only_diverge {A} : fetch_only (@diverge A).
Proof. intros w. simpl. repeat split. exists []. by rewrite app_nil_r. Qed.

Lemma fetch_only_emit (e : Effect) : network_effect e → fetch_only (emit e).
Proof. intros He w. simpl. repeat split. exists [e]. split; [done | by constructor]. Qed.

Lemma fetch_only_now env : fetch_only (now env).
Proof. intros w. simpl. repeat split. exists []. by rewrite app_nil_r. Qed.

Lemma fetch_only_bind {A B} (m : M A) (k : A → M B) :
  fetch_only m → (∀ a, fetch_only (k a)) → fetch_only (bind m k).
Proof.
  intros Hm Hk w. unfold bind.
  specialize (Hm w). destruct (m w) as [[a | e |] w1]; simpl in Hm; try done.
  destruct Hm as (Hf & Ht & l1 & Hl1 & HF1).
  destruct (Hk a w1) as (Hf' & Ht' & l2 & Hl2 & HF2).
  rewrite Hf', Ht', Hl2, Hf, Ht, Hl1. repeat split.
  exists (l1 ++ l2). split; [by rewrite app_assoc | by apply Forall_app].
Qed.

Lemma fetch_only_now_iso env : fetch_only (now_iso env).
Proof.
  apply fetch_only_bind; [apply fetch_only_now | intros; apply fetch_only_ret].
Qed.

Lemma fetch_only_raise_for_status env {B} (r : HttpReply B) :
  fetch_only (raise_for_status env r).
Proof.
  destruct r as [e | status body]; simpl; [apply fetch_only_raise |].
  destruct (_ && _); [apply fetch_only_raise | apply fetch_only_ret].
Qed.

Create HintDb fetch discriminated.
#[local] Hint Resolve fetch_only_ret fetch_only_lift fetch_only_raise
  fetch_only_diverge fetch_only_now fetch_only_now_iso
  fetch_only_raise_for_status : fetch.

Ltac fetch_step :=
  first [ apply fetch_only_bind; [| intros ?]
        | apply fetch_only_emit; exact I
        | solve [auto with fetch] ].

Lemma fetch_only_normalize_api env raw : fetch_only (_normalize_api_event env raw).
Proof.
  unfold _normalize_api_event.
  fetch_step; [fetch_step |].
  destruct (negb _); [fetch_step |].
  fetch_step; [fetch_step |].
  destruct a0 as [start_iso |]; [| fetch_step].
  destruct (negb _); [fetch_step |].
  repeat fetch_step.
Qed.

Lemma fetch_only_normalize_ical env c : fetch_only (_normalize_ical_event env c).
Proof.
  unfold _normalize_ical_event.
  destruct (negb _); [fetch_step |].
  fetch_step; [fetch_step |].
  destruct a as [start_iso |]; [| fetch_step].
  destruct (negb _); [fetch_step |].
  repeat fetch_step.
Qed.

Lemma fetch_only_normalize_api_all env raws events :
  fetch_only (normalize_api_all env raws events).
Proof.
  revert events; induction raws as [|raw raws IH]; intros events; simpl.
  - fetch_step.
  - fetch_step; [apply fetch_only_normalize_api | apply IH].
Qed.

Lemma fetch_only_normalize_ical_all env cs events :
  fetch_only (normalize_ical_all env cs events).
Proof.
  revert events; induction cs as [|c cs IH]; intros events; simpl.
  - fetch_step.
  - destruct (String.eqb _ _); [| apply IH].
    fetch_step; [apply fetch_only_normalize_ical | apply IH].
Qed.

Lemma fetch_only_api_pages env fuel today page events :
  fetch_only (api_pages env fuel today page events).
Proof.
  revert page events; induction fuel as [|fuel IH]; intros page events; simpl.
  - fetch_step.
  - fetch_step; [destruct (0 <? page); fetch_step |].
    fetch_step; [fetch_step |].
    fetch_step; [fetch_step |].
    fetch_step; [fetch_step |].
    fetch_step; [apply fetch_only_normalize_api_all |].
    destruct (_ || _); [fetch_step | apply IH].
Qed.

Lemma fetch_only_api env fuel : fetch_only (_fetch_via_api env fuel).
Proof.
  unfold _fetch_via_api. fetch_step; [fetch_step | apply fetch_only_api_pages].
Qed.

Lemma fetch_only_ical env : fetch_only (_fetch_via_ical env).
Proof.
  unfold _fetch_via_ical.
  fetch_step; [fetch_step |].
  fetch_step; [fetch_step |].
  destruct a0; [fetch_step | apply fetch_only_normalize_ical_all].
Qed.

(* ===================================================================== *)
(** * Properties: failure state                                           *)
(* ===================================================================== *)

Lemma load_state_loaded (w : World) : _load_state w = (Ok (loaded w), w).
Proof. unfold _load_state, loaded. by destruct (state_file w). Qed.

Lemma failures_saved doc t k tr :
  failures (mkWorld (FileJson doc) t k tr) = doc_failures doc.
Proof. reflexivity. Qed.

Lemma blocked_saved doc t k tr :
  blocked (mkWorld (FileJson doc) t k tr) = doc_blocked doc.
Proof. reflexivity. Qed.

(** What [_record_failure] leaves behind: the document it returns is in the
    file, one clock reading and one write happened, the count went up by
    one and the switch is on from [MAX_FAILURES] on. *)
Lemma record_failure_spec env state w :
  ∃ doc,
    _record_failure env state w
    = (Ok doc, mkWorld (FileJson doc) (table w) (S (ticks w))
                       (trace w ++ [StateWrite doc])) ∧
    doc_failures doc = doc_failures state + 1 ∧
    doc_blocked doc = (MAX_FAILURES <=? doc_failures state + 1) || doc_blocked state.
Proof.
  eexists. split.
  { cbv beta iota zeta delta
      [_record_failure _save_state now_iso now bind ret emit].
    reflexivity. }
  unfold doc_failures, doc_blocked, doc_state.
  rewrite lookup_insert_eq. simpl. split; [done |].
  by destruct (MAX_FAILURES <=? _).
Qed.

Lemma record_success_spec env state w :
  ∃ doc,
    _record_success env state w
    = (Ok doc, mkWorld (FileJson doc) (table w) (S (ticks w))
                       (trace w ++ [StateWrite doc])) ∧
    doc_failures doc = 0 ∧ doc_blocked doc = false.
Proof.
  eexists. split.
  { cbv beta iota zeta delta
      [_record_success _save_state now_iso now bind ret emit].
    reflexivity. }
  unfold doc_failures, doc_blocked, doc_state.
  by rewrite lookup_insert_eq.
Qed.

(** The administrative reset takes a readable state file back to
    [Healthy(0)]. *)
Lemma reset_kill_switch_unblocks (w : World) doc :
  state_file w = FileJson doc →
  ∃ w', _reset_kill_switch w = (Ok tt, w') ∧
        failures w' = 0 ∧ blocked w' = false ∧ table w' = table w.
Proof.
  intros Hfile. unfold _reset_kill_switch. rewrite Hfile.
  eexists. split; [reflexivity |].
  rewrite failures_saved, blocked_saved.
  unfold doc_failures, doc_blocked, doc_state. rewrite lookup_fmap.
  by destruct (doc !! SOURCE).
Qed.

(** ** The kill-switch check *)

Lemma run_blocked env fuel w :
  blocked w = true →
  run env fuel w
  = (Ok (mkResult 0 0 0 "none" (Some (kill_switch_msg (failure_state w)))), w).
Proof.
  intros Hb. unfold run.
  rewrite (bind_ok _ _ _ _ _ (load_state_loaded w)).
  change (default false (kill_switch (default empty_source (loaded w !! SOURCE))))
    with (blocked w).
  by rewrite Hb.
Qed.

Lemma run_unblocked env fuel w :
  blocked w = false →
  run env fuel w
  = bind (fetch_phase env (loaded w) fuel)
         (fun got => match got with
                     | inl result => ret result
                     | inr (events, fetch_source) =>
                         store_phase env (loaded w) events fetch_source
                     end) w.
Proof.
  intros Hb. unfold run.
  rewrite (bind_ok _ _ _ _ _ (load_state_loaded w)).
  change (default false (kill_switch (default empty_source (loaded w !! SOURCE))))
    with (blocked w).
  by rewrite Hb.
Qed.

(** ** The fetch phase *)

Lemma ical_fallback_fails env state w e w' :
  _fetch_via_ical env w = (Raise e, w') →
  ical_fallback env state w
  = bind (_record_failure env state)
         (fun _ => ret (inl (mkResult 0 0 0 "none" (Some (exn_str e))))) w'.
Proof.
  intros H. unfold ical_fallback, try_except.
  by rewrite (bind_raise _ _ _ _ _ H).
Qed.

Lemma ical_fallback_yields env state w events w' :
  _fetch_via_ical env w = (Ok events, w') →
  ical_fallback env state w = (Ok (inr (events, "ical")), w').
Proof.
  intros H. unfold ical_fallback, try_except.
  by rewrite (bind_ok _ _ _ _ _ H).
Qed.

Lemma fetch_phase_falls_back env state fuel w e w' :
  _fetch_via_api env fuel w = (Raise e, w') →
  fetch_phase env state fuel w = ical_fallback env state w'.
Proof.
  intros H. unfold fetch_phase, try_except.
  rewrite (bind_raise _ _ _ _ _ H). by destruct e.
Qed.

Lemma fetch_phase_yields env state fuel w events fetch_source w' :
  fetch_yields env fuel w events fetch_source w' →
  fetch_phase env state fuel w = (Ok (inr (events, fetch_source)), w').
Proof.
  intros [[H ->] | (e & w1 & Hapi & Hical & ->)].
  - unfold fetch_phase, try_except. by rewrite (bind_ok _ _ _ _ _ H).
  - rewrite (fetch_phase_falls_back _ _ _ _ _ _ Hapi).
    by apply ical_fallback_yields.
Qed.

Lemma fetch_yields_frame env fuel w events fetch_source w' :
  fetch_yields env fuel w events fetch_source w' →
  state_file w' = state_file w ∧ table w' = table w ∧
  ∃ l, trace w' = trace w ++ l ∧ Forall network_effect l.
Proof.
  intros [[H _] | (e & w1 & Hapi & Hical & _)].
  - pose proof (fetch_only_api env fuel w) as Hf. by rewrite H in Hf.
  - pose proof (fetch_only_api env fuel w) as (Hf1 & Ht1 & l1 & Hl1 & HF1).
    pose proof (fetch_only_ical env w1) as (Hf2 & Ht2 & l2 & Hl2 & HF2).
    rewrite Hapi in Hf1, Ht1, Hl1. rewrite Hical in Hf2, Ht2, Hl2. simpl in *.
    rewrite Hf2, Ht2, Hl2, Hf1, Ht1, Hl1. repeat split.
    exists (l1 ++ l2). split; [by rewrite app_assoc | by apply Forall_app].
Qed.

(** A run whose two fetches fail: the result carries the text of the second
    exception, and [_record_failure] ran on the loaded state. *)
Lemma run_total_failure env fuel w e1 w1 e2 w2 :
  blocked w = false →
  _fetch_via_api env fuel w = (Raise e1, w1) →
  _fetch_via_ical env w1 = (Raise e2, w2) →
  ∃ doc,
    run env fuel w
    = (Ok (mkResult 0 0 0 "none" (Some (exn_str e2))),
       mkWorld (FileJson doc) (table w2) (S (ticks w2))
               (trace w2 ++ [StateWrite doc])) ∧
    doc_failures doc = failures w + 1 ∧
    doc_blocked doc = (MAX_FAILURES <=? failures w + 1).
Proof.
  intros Hb Hapi Hical.
  destruct (record_failure_spec env (loaded w) w2) as (doc & Hrec & Hn & Hk).
  exists doc. split; [| split; [exact Hn |]].
  - rewrite (run_unblocked _ _ _ Hb).
    unfold bind at 1.
    rewrite (fetch_phase_falls_back _ _ _ _ _ _ Hapi).
    rewrite (ical_fallback_fails _ _ _ _ _ Hical).
    by rewrite (bind_ok _ _ _ _ _ Hrec).
  - rewrite Hk. unfold blocked in Hb. rewrite Hb. apply orb_false_r.
Qed.

Lemma total_failure_step env fuel w :
  blocked w = false →
  both_fetches_fail env fuel w →
  failures (run env fuel w).2 = failures w + 1 ∧
  blocked (run env fuel w).2 = (MAX_FAILURES <=? failures w + 1).
Proof.
  intros Hb (e1 & w1 & e2 & w2 & Hapi & Hical).
  destruct (run_total_failure _ _ _ _ _ _ _ Hb Hapi Hical) as (doc & -> & Hn & Hk).
  done.
Qed.

(** C1. From [Healthy(0)], three runs whose fetches fail on both sources
    take the count of consecutive failures to 1, 2 and 3, the third one
    activates the kill switch, and every later run returns the
    zero-activity error result at once and leaves the world as it was: no
    request, no store call, no write of the failure state. *)
Theorem kill_switch_after_three_failures
    env1 env2 env3 fuel1 fuel2 fuel3 (w0 : World) :
  let w1 := (run env1 fuel1 w0).2 in
  let w2 := (run env2 fuel2 w1).2 in
  let w3 := (run env3 fuel3 w2).2 in
  failures w0 = 0 → blocked w0 = false →
  both_fetches_fail env1 fuel1 w0 →
  both_fetches_fail env2 fuel2 w1 →
  both_fetches_fail env3 fuel3 w2 →
  (failures w1 = 1 ∧ blocked w1 = false) ∧
  (failures w2 = 2 ∧ blocked w2 = false) ∧
  (failures w3 = 3 ∧ blocked w3 = true) ∧
  ∀ env4 fuel4,
    run env4 fuel4 w3
    = (Ok (mkResult 0 0 0 "none" (Some (kill_switch_msg (failure_state w3)))), w3).
Proof.
  intros w1 w2 w3 Hn0 Hb0 H1 H2 H3.
  destruct (total_failure_step _ _ _ Hb0 H1) as [Hn1 Hb1].
  fold w1 in Hn1, Hb1. rewrite Hn0 in Hn1, Hb1. simpl in Hn1, Hb1.
  destruct (total_failure_step _ _ _ Hb1 H2) as [Hn2 Hb2].
  fold w2 in Hn2, Hb2. rewrite Hn1 in Hn2, Hb2. simpl in Hn2, Hb2.
  destruct (total_failure_step _ _ _ Hb2 H3) as [Hn3 Hb3].
  fold w3 in Hn3, Hb3. rewrite Hn2 in Hn3, Hb3. simpl in Hn3, Hb3.
  split; [by split |]. split; [by split |]. split; [by split |].
  intros env4 fuel4. by apply run_blocked.
Qed.

Lemma env_down_fails fuel w : both_fetches_fail Scenario.env_down (S fuel) w.
Proof.
  do 4 eexists. split.
  - cbv beta iota zeta delta
      [_fetch_via_api api_pages now bind ret emit raise raise_for_status
       Scenario.env_down api_get Z.ltb Z.mul Z.compare].
    reflexivity.
  - cbv beta iota zeta delta
      [_fetch_via_ical bind emit raise raise_for_status
       Scenario.env_down ical_get].
    reflexivity.
Qed.

Lemma kill_switch_after_three_failures_witness :
  let w3 := (run Scenario.env_down 1
              (run Scenario.env_down 1
                (run Scenario.env_down 1 Scenario.fresh).2).2).2 in
  failures Scenario.fresh = 0 ∧ blocked Scenario.fresh = false ∧
  failures w3 = 3 ∧ blocked w3 = true ∧
  run Scenario.env_feed 5 w3
  = (Ok (mkResult 0 0 0 "none" (Some (kill_switch_msg (failure_state w3)))), w3).
Proof.
  intros w3.
  pose proof (kill_switch_after_three_failures
                Scenario.env_down Scenario.env_down Scenario.env_down 1 1 1
                Scenario.fresh eq_refl eq_refl
                (env_down_fails _ _) (env_down_fails _ _) (env_down_fails _ _))
    as (_ & _ & [Hn Hb] & Hrun).
  split; [reflexivity |]. split; [reflexivity |].
  split; [exact Hn |]. split; [exact Hb |].
  exact (Hrun Scenario.env_feed 5%nat).
Defined.

Example kill_switch_message :
  (run Scenario.env_feed 5
     (run Scenario.env_down 1
       (run Scenario.env_down 1
         (run Scenario.env_down 1 Scenario.fresh).2).2).2).1
  = Ok (mkResult 0 0 0 "none"
         (Some ("Kill switch is active for 'getinvolved' after 3 consecutive "
                +:+ "failures. Reset backend/state.json manually to resume."))).
Proof. vm_compute. reflexivity. Qed.

(** ** A lost state file *)



(* ===================================================================== *)
(** * Properties: safety check and reconciliation in [run]                *)
(* ===================================================================== *)

Lemma int_or_zero (n : Z) : int_or (Some n) 0 = n.
Proof. unfold int_or. destruct (n =? 0) eqn:H; [lia | done]. Qed.

Lemma get_stored_count_spec env w :
  store_count_fault env = None →
  _get_stored_count env w
  = (Ok (stored_rows (table w)),
     mkWorld (state_file w) (table w) (ticks w) (trace w ++ [StoreCount])).
Proof.
  intros Hf.
  cbv beta iota zeta delta [_get_stored_count store_count store_call bind emit ret].
  rewrite Hf. cbv beta iota. cbn [table]. by rewrite int_or_zero.
Qed.

(** The safety check on an empty fetch, when the count query answers. *)
Lemma store_phase_empty env state fetch_source w :
  store_count_fault env = None →
  store_phase env state [] fetch_source w
  = (if 50 <=? stored_rows (table w)
     then bind (_record_failure env state)
               (fun _ => ret (mkResult 0 0 0 fetch_source
                                       (Some (refuse_msg (stored_rows (table w))))))
     else bind (_record_success env state)
               (fun _ => ret (mkResult 0 0 0 fetch_source None)))
      (mkWorld (state_file w) (table w) (ticks w) (trace w ++ [StoreCount])).
Proof.
  intros Hf. unfold store_phase. cbn [length bool_decide decide_rel].
  rewrite bool_decide_eq_true_2 by done.
  rewrite (bind_ok _ _ _ _ _ (get_stored_count_spec env w Hf)).
  by destruct (50 <=? _).
Qed.

(** C2. When the fetch succeeds with zero events while the store holds at
    least 50 events of this source, the run writes nothing to the store
    (the table is unchanged and its only store call is the count), records
    a failure, and returns zero counts with an error message. *)
Theorem refuses_suspicious_empty env fuel (w : World) fetch_source (w1 : World) :
  blocked w = false →
  fetch_yields env fuel w [] fetch_source w1 →
  store_count_fault env = None →
  50 <= stored_rows (table w) →
  ∃ w2 doc l,
    run env fuel w
    = (Ok (mkResult 0 0 0 fetch_source
                    (Some (refuse_msg (stored_rows (table w))))), w2) ∧
    table w2 = table w ∧
    state_file w2 = FileJson doc ∧
    trace w2 = trace w ++ l ++ [StoreCount; StateWrite doc] ∧
    Forall network_effect l ∧
    failures w2 = failures w + 1 ∧
    blocked w2 = (MAX_FAILURES <=? failures w + 1).
Proof.
  intros Hb Hfetch Hfault Hstored.
  destruct (fetch_yields_frame _ _ _ _ _ _ Hfetch) as (_ & Ht & l & Hl & HF).
  set (w1' := mkWorld (state_file w1) (table w) (ticks w1) (trace w1 ++ [StoreCount])).
  destruct (record_failure_spec env (loaded w) w1') as (doc & Hrec & Hn & Hk).
  eexists _, doc, l. split.
  - rewrite (run_unblocked _ _ _ Hb). unfold bind at 1.
    rewrite (fetch_phase_yields _ _ _ _ _ _ _ Hfetch).
    rewrite (store_phase_empty _ _ _ _ Hfault), Ht.
    apply Z.leb_le in Hstored as ->. cbv iota.
    fold w1'. rewrite (bind_ok _ _ _ _ _ Hrec). reflexivity.
  - rewrite failures_saved, blocked_saved.
    cbn [table state_file trace w1']. rewrite Hl, <- !app_assoc.
    do 4 (split; [done |]). split; [exact Hn |].
    unfold blocked in Hb. rewrite Hk, Hb. apply orb_false_r.
Qed.

Example stocked_count : stored_rows (table Scenario.stocked) = 75.
Proof. vm_compute. reflexivity. Qed.

Lemma refuses_suspicious_empty_witness :
  ∃ w2,
    run Scenario.env_empty 1 Scenario.stocked
    = (Ok (mkResult 0 0 0 "api"
             (Some (refuse_msg (stored_rows (table Scenario.stocked))))), w2) ∧
    table w2 = table Scenario.stocked ∧ failures w2 = 1.
Proof.
  assert (fetch_yields Scenario.env_empty 1 Scenario.stocked [] "api"
            (mkWorld (FileJson DEFAULT_STATE) (table Scenario.stocked) 1
                     [ApiRequest "2025-03-01" 0])) as Hfetch.
  { left. split; [vm_compute; reflexivity | reflexivity]. }
  assert (50 <= stored_rows (table Scenario.stocked)) as Hstored.
  { vm_compute. discriminate. }
  destruct (refuses_suspicious_empty Scenario.env_empty 1 Scenario.stocked "api" _
              eq_refl Hfetch eq_refl Hstored)
    as (w2 & doc & l & Hrun & Ht & _ & _ & _ & Hn & _).
  exists w2. split; [exact Hrun |]. split; [exact Ht | exact Hn].
Defined.

Example refuse_message :
  (run Scenario.env_empty 1 Scenario.stocked).1
  = Ok (mkResult 0 0 0 "api"
         (Some ("Fetched 0 events but 75 are stored. "
                +:+ "Refusing to wipe data — check the source manually."))).
Proof. vm_compute. reflexivity. Qed.

(** The safety check lets an empty fetch pass below the floor. *)
Lemma run_empty_below_floor env fuel (w : World) fetch_source (w1 : World) :
  blocked w = false →
  fetch_yields env fuel w [] fetch_source w1 →
  store_count_fault env = None →
  stored_rows (table w) < 50 →
  ∃ w2,
    run env fuel w = (Ok (mkResult 0 0 0 fetch_source None), w2) ∧
    table w2 = table w ∧ failures w2 = 0 ∧ blocked w2 = false.
Proof.
  intros Hb Hfetch Hfault Hstored.
  destruct (fetch_yields_frame _ _ _ _ _ _ Hfetch) as (_ & Ht & _).
  set (w1' := mkWorld (state_file w1) (table w) (ticks w1) (trace w1 ++ [StoreCount])).
  destruct (record_success_spec env (loaded w) w1') as (doc & Hrec & Hn & Hk).
  eexists. split.
  - rewrite (run_unblocked _ _ _ Hb). unfold bind at 1.
    rewrite (fetch_phase_yields _ _ _ _ _ _ _ Hfetch).
    rewrite (store_phase_empty _ _ _ _ Hfault), Ht.
    apply Z.leb_gt in Hstored as ->. cbv iota.
    fold w1'. rewrite (bind_ok _ _ _ _ _ Hrec). reflexivity.
  - by rewrite failures_saved, blocked_saved.
Qed.

(** C3, as stated, fails: with both sources down and an empty table the
    result carries the error of the feed and a failure is recorded. *)
Lemma total_failure_empty_store_counterexample :
  both_fetches_fail Scenario.env_down 1 Scenario.fresh ∧
  stored_rows (table Scenario.fresh) = 0 ∧
  (run Scenario.env_down 1 Scenario.fresh).1
  = Ok (mkResult 0 0 0 "none" (Some "connection refused")) ∧
  error (mkResult 0 0 0 "none" (Some "connection refused")) ≠ None ∧
  failures Scenario.fresh = 0 ∧
  failures (run Scenario.env_down 1 Scenario.fresh).2 = 1.
Proof.
  split; [apply env_down_fails |].
  split; [vm_compute; reflexivity |].
  split; [vm_compute; reflexivity |].
  split; [discriminate |].
  split; vm_compute; reflexivity.
Qed.

(** C3, amended. A run whose two fetches fail returns zero counts, the
    source ["none"] and the text of the feed's exception, records a failure
    and does not call the store, whatever the table holds. The result
    without error, with success recorded, is that of a fetch that succeeds
    with zero events while fewer than 50 events of this source are stored. *)
Theorem total_failure_is_recorded env fuel (w : World) :
  blocked w = false →
  (∀ e1 w1 e2 w2,
     _fetch_via_api env fuel w = (Raise e1, w1) →
     _fetch_via_ical env w1 = (Raise e2, w2) →
     ∃ w3 doc l,
       run env fuel w = (Ok (mkResult 0 0 0 "none" (Some (exn_str e2))), w3) ∧
       failures w3 = failures w + 1 ∧
       table w3 = table w ∧
       trace w3 = trace w ++ l ++ [StateWrite doc] ∧
       Forall network_effect l) ∧
  (∀ fetch_source w1,
     fetch_yields env fuel w [] fetch_source w1 →
     store_count_fault env = None →
     stored_rows (table w) < 50 →
     ∃ w3,
       run env fuel w = (Ok (mkResult 0 0 0 fetch_source None), w3) ∧
       table w3 = table w ∧ failures w3 = 0 ∧ blocked w3 = false).
Proof.
  intros Hb. split.
  - intros e1 w1 e2 w2 Hapi Hical.
    destruct (run_total_failure _ _ _ _ _ _ _ Hb Hapi Hical) as (doc & Hrun & Hn & _).
    pose proof (fetch_only_api env fuel w) as (_ & Ht1 & l1 & Hl1 & HF1).
    pose proof (fetch_only_ical env w1) as (_ & Ht2 & l2 & Hl2 & HF2).
    rewrite Hapi in Ht1, Hl1. rewrite Hical in Ht2, Hl2. cbn [snd] in *.
    eexists _, doc, (l1 ++ l2). split; [exact Hrun |].
    rewrite failures_saved. cbn [table trace].
    rewrite Ht2, Ht1, Hl2, Hl1, <- !app_assoc.
    do 3 (split; [done |]). by apply Forall_app.
  - intros fetch_source w1. by apply run_empty_below_floor.
Qed.

Lemma total_failure_is_recorded_witness :
  (∃ w3, run Scenario.env_down 1 Scenario.fresh
         = (Ok (mkResult 0 0 0 "none" (Some "connection refused")), w3) ∧
         failures w3 = 1) ∧
  (∃ w3, run Scenario.env_empty 1 Scenario.fresh
         = (Ok (mkResult 0 0 0 "api" None), w3) ∧ failures w3 = 0).
Proof.
  split.
  - destruct (proj1 (total_failure_is_recorded Scenario.env_down 1 Scenario.fresh
                       eq_refl)
                (PyError "ConnectionError" "connection refused")
                (mkWorld FileMissing ∅ 1 [ApiRequest "2025-03-01" 0])
                (PyError "ConnectionError" "connection refused")
                (mkWorld FileMissing ∅ 1 [ApiRequest "2025-03-01" 0; IcalRequest]))
      as (w3 & doc & l & Hrun & Hn & _); [vm_compute; reflexivity ..|].
    exists w3. split; [exact Hrun | exact Hn].
  - destruct (proj2 (total_failure_is_recorded Scenario.env_empty 1 Scenario.fresh
                       eq_refl)
                "api" (mkWorld FileMissing ∅ 1 [ApiRequest "2025-03-01" 0]))
      as (w3 & Hrun & _ & Hn & _).
    + left. split; [vm_compute; reflexivity | reflexivity].
    + reflexivity.
    + vm_compute. reflexivity.
    + exists w3. split; [exact Hrun | exact Hn].
Defined.

Lemma store_phase_no_error env state events fetch_source w r w' :
  store_phase env state events fetch_source w = (Ok r, w') →
  error r = None →
  source_used r = fetch_source ∧ successful_summary env events w r w'.
Proof.
  unfold store_phase, successful_summary. intros Hrun Herr.
  case_bool_decide as Hlen.
  - apply nil_length_inv in Hlen as ->.
    unfold bind at 1 in Hrun.
    destruct (_get_stored_count env w) as [[stored | e |] w1]; try discriminate.
    destruct (50 <=? stored).
    + destruct (record_failure_spec env state w1) as (doc & Hrec & _).
      rewrite (bind_ok _ _ _ _ _ Hrec) in Hrun.
      injection Hrun as <- <-. discriminate.
    + destruct (record_success_spec env state w1) as (doc & Hrec & Hn & Hk).
      rewrite (bind_ok _ _ _ _ _ Hrec) in Hrun.
      injection Hrun as <- <-.
      rewrite failures_saved, blocked_saved. cbn [source_used fetched inserted updated].
      repeat split; try done. by left.
  - unfold bind at 1, try_except in Hrun. unfold bind at 1 in Hrun.
    destruct (_upsert_events env events w) as [[[ins upd] | e |] w1] eqn:Hup;
      try discriminate.
    + destruct (record_success_spec env state w1) as (doc & Hrec & Hn & Hk).
      unfold ret at 1 in Hrun.
      rewrite (bind_ok _ _ _ _ _ Hrec) in Hrun.
      injection Hrun as <- <-.
      rewrite failures_saved, blocked_saved. cbn [source_used fetched inserted updated].
      repeat split; try done. right. split; [by destruct events | by exists w1].
    + destruct (record_failure_spec env state w1) as (doc & Hrec & _).
      rewrite (bind_ok _ _ _ _ _ Hrec) in Hrun. unfold ret in Hrun.
      injection Hrun as <- <-. discriminate.
Qed.

(** C4, as stated, fails: after an HTTP 429 of the API and a successful
    fetch of two events from the feed, the result names its source ["ical"],
    not ["feed"]. *)
Lemma feed_source_label_counterexample :
  (∃ w', _fetch_via_api Scenario.env_feed 5 Scenario.fresh
         = (Raise (HTTPError (Some 429) "429 Client Error"), w')) ∧
  (run Scenario.env_feed 5 Scenario.fresh).1 = Ok (mkResult 2 2 0 "ical" None) ∧
  source_used (mkResult 2 2 0 "ical" None) ≠ "feed" ∧
  failures (run Scenario.env_feed 5 Scenario.fresh).2 = 0.
Proof.
  split; [eexists; vm_compute; reflexivity |].
  split; [vm_compute; reflexivity |].
  split; [discriminate | vm_compute; reflexivity].
Qed.

(** The two events of that run, with their campuses. *)
Example feed_events_campuses :
  (λ e, (title e, campus e)) <$>
    (map_to_list (table (run Scenario.env_feed 5 Scenario.fresh).2)).*2
  ≡ₚ [("Chess Night", "Online"); ("Board Games", "Livingston")].
Proof. vm_compute. reflexivity || apply perm_swap. Qed.

(** C4, amended. A run that completes without error after the API fetch
    raised and the feed fetch succeeded reports the source ["ical"]; after a
    successful API fetch it reports ["api"]. In both cases the result has
    the number of fetched events and the counts of the reconciliation, and
    the failure count is back to 0 with the kill switch off. *)
Theorem successful_run_reports_source env fuel (w : World) events r (w1 w2 : World) :
  blocked w = false →
  run env fuel w = (Ok r, w2) →
  error r = None →
  (∀ e w',
     _fetch_via_api env fuel w = (Raise e, w') →
     _fetch_via_ical env w' = (Ok events, w1) →
     source_used r = "ical" ∧ successful_summary env events w1 r w2) ∧
  (_fetch_via_api env fuel w = (Ok events, w1) →
   source_used r = "api" ∧ successful_summary env events w1 r w2).
Proof.
  intros Hb Hrun Herr.
  assert (∀ fetch_source,
            fetch_yields env fuel w events fetch_source w1 →
            source_used r = fetch_source ∧ successful_summary env events w1 r w2)
    as Hany.
  { intros fetch_source Hfetch.
    rewrite (run_unblocked _ _ _ Hb) in Hrun. unfold bind at 1 in Hrun.
    rewrite (fetch_phase_yields _ _ _ _ _ _ _ Hfetch) in Hrun.
    by apply (store_phase_no_error _ _ _ _ _ _ _ Hrun). }
  split.
  - intros e w' Hapi Hical. apply Hany. right. by exists e, w'.
  - intros Hapi. apply Hany. by left.
Qed.

(* ===================================================================== *)
(** * Properties: reconciliation                                          *)
(* ===================================================================== *)

Lemma filter_is_sublist {A} (P : A → Prop) `{!∀ x, Decision (P x)} (l : list A) :
  filter P l `sublist_of` l.
Proof.
  induction l as [|x l IH]; [constructor |].
  rewrite filter_cons. destruct (decide (P x)); by constructor.
Qed.

(** The loop only ever appends to its accumulator. *)
Lemma dedup_events_acc seen deduped events :
  dedup_events seen deduped events = deduped ++ dedup_events seen [] events.
Proof.
  revert seen deduped; induction events as [|e rest IH]; intros seen deduped; simpl.
  - by rewrite app_nil_r.
  - case_bool_decide.
    + rewrite (IH _ (deduped ++ [e])), (IH _ [e]). by rewrite <- app_assoc.
    + apply IH.
Qed.

(** The loop started with the ids [seen] keeps the first occurrences whose id
    is not in [seen]. *)
Lemma dedup_events_filter seen events :
  dedup_events seen [] events
  = filter (λ x, event_id x ∉ seen) (first_occurrences events).
Proof.
  revert seen; induction events as [|e rest IH]; intros seen; simpl; [done |].
  rewrite filter_cons. case_bool_decide as Hseen.
  - rewrite decide_True by done.
    rewrite dedup_events_acc, IH. simpl. f_equal.
    rewrite list_filter_filter. apply list_filter_iff. intros x.
    rewrite not_elem_of_union, not_elem_of_singleton. tauto.
  - rewrite decide_False by (intros Hn; by apply Hn). rewrite IH.
    symmetry. apply list_filter_filter_l. intros x Hx Heq.
    apply Hx. by rewrite Heq.
Qed.

Lemma dedup_events_first_occurrences events :
  dedup_events ∅ [] events = first_occurrences events.
Proof.
  rewrite dedup_events_filter.
  induction (first_occurrences events) as [|x l IH]; [done |].
  rewrite filter_cons, decide_True by set_solver. by rewrite IH.
Qed.

Lemma first_occurrences_sublist events :
  first_occurrences events `sublist_of` events.
Proof.
  induction events as [|e rest IH]; simpl; [constructor |].
  apply sublist_skip. etrans; [apply filter_is_sublist | exact IH].
Qed.

Lemma first_occurrences_ids events i :
  i ∈ event_id <$> events ↔ i ∈ event_id <$> first_occurrences events.
Proof.
  induction events as [|e rest IH]; simpl; [done |].
  rewrite !elem_of_cons, IH, !list_elem_of_fmap.
  split.
  - intros [-> | (x & -> & Hx)]; [by left |].
    destruct (decide (event_id x = event_id e)) as [Heq | Hne]; [by left |].
    right. exists x. split; [done |]. by apply list_elem_of_filter.
  - intros [-> | (x & -> & [_ Hx]%list_elem_of_filter)]; [by left |].
    right. by exists x.
Qed.

Lemma first_occurrences_NoDup events :
  NoDup (event_id <$> first_occurrences events).
Proof.
  induction events as [|e rest IH]; simpl; [constructor |].
  apply NoDup_cons. split.
  - intros (x & Heq & [Hne _]%list_elem_of_filter)%list_elem_of_fmap. by apply Hne.
  - eapply sublist_NoDup; [exact IH |].
    apply fmap_sublist, filter_is_sublist.
Qed.

(** An event before which no event has its id is kept. *)
Lemma first_occurrences_keeps pre e post :
  event_id e ∉ event_id <$> pre →
  e ∈ first_occurrences (pre ++ e :: post).
Proof.
  induction pre as [|x pre IH]; simpl; intros Hpre; [by left |].
  apply not_elem_of_cons in Hpre as [Hne Hpre].
  right. apply list_elem_of_filter. split; [done | by apply IH].
Qed.

(** With a repeated id the batch is strictly shorter than the input. *)
Lemma first_occurrences_shorter events :
  ¬ NoDup (event_id <$> events) →
  (length (first_occurrences events) < length events)%nat.
Proof.
  induction events as [|e rest IH]; simpl; intros Hdup.
  - destruct Hdup. constructor.
  - pose proof (sublist_length _ _ (first_occurrences_sublist rest)) as Hle.
    destruct (decide (event_id e ∈ event_id <$> rest)) as [Hin | Hnin].
    + apply first_occurrences_ids, list_elem_of_fmap in Hin as (x & Heq & Hx).
      pose proof (length_filter_lt (λ y, event_id y ≠ event_id e) _ x Hx
                    (λ Hne, Hne (eq_sym Heq))) as Hlt.
      lia.
    + destruct (decide (NoDup (event_id <$> rest))) as [Hnd | Hnd].
      * destruct Hdup. by constructor.
      * specialize (IH Hnd).
        pose proof (length_filter (λ y, event_id y ≠ event_id e)
                      (first_occurrences rest)). lia.
Qed.

(** Writing a batch whose ids are distinct leaves every row of the batch in
    the table, and no other key is touched. *)
Lemma upsert_rows_other (rows : list Event) (t : gmap string Event) k :
  k ∉ event_id <$> rows → foldl upsert_row t rows !! k = t !! k.
Proof.
  revert t; induction rows as [|x rows IH]; intros t Hk; simpl; [done |].
  apply not_elem_of_cons in Hk as [Hne Hk].
  rewrite IH by done. unfold upsert_row. by rewrite lookup_insert_ne.
Qed.

Lemma upsert_rows_lookup (rows : list Event) (t : gmap string Event) e :
  NoDup (event_id <$> rows) → e ∈ rows →
  foldl upsert_row t rows !! event_id e = Some e.
Proof.
  revert t; induction rows as [|x rows IH]; intros t Hnd He; simpl.
  - by apply elem_of_nil in He.
  - apply NoDup_cons in Hnd as [Hx Hnd].
    apply elem_of_cons in He as [-> | He]; [| by apply IH].
    rewrite upsert_rows_other by done. unfold upsert_row. by rewrite lookup_insert_eq.
Qed.

Lemma filter_ext_in {A} (P Q : A → Prop)
    `{!∀ x, Decision (P x), !∀ x, Decision (Q x)} (l : list A) :
  (∀ x, x ∈ l → P x ↔ Q x) → filter P l = filter Q l.
Proof.
  induction l as [|x l IH]; intros Hext; [done |].
  rewrite !filter_cons.
  rewrite IH by (intros y Hy; apply Hext; by right).
  destruct (decide (P x)) as [HP | HP], (decide (Q x)) as [HQ | HQ]; try done.
  - destruct HQ. apply Hext; [by left | done].
  - destruct HP. apply Hext; [by left | done].
Qed.

Lemma key_in_table (t : gmap string Event) k :
  k ∈ (map_to_list t).*1 ↔ is_Some (t !! k).
Proof.
  rewrite list_elem_of_fmap. split.
  - intros ([k' x] & -> & Hin%elem_of_map_to_list). by exists x.
  - intros [x Hx]. exists (k, x). split; [done | by apply elem_of_map_to_list].
Qed.

(** The rows [store_select] reports are those of the batch that the table
    holds, so an event counts as inserted exactly when its id has no row. *)
Lemma existing_ids_spec (t : gmap string Event) (ids : list string) k :
  k ∈ ids →
  k ∉ (list_to_set (filter (λ k, k ∈ ids) (map_to_list t).*1) : gset string)
  ↔ t !! k = None.
Proof.
  intros Hk. rewrite elem_of_list_to_set, list_elem_of_filter, key_in_table.
  rewrite eq_None_not_Some. tauto.
Qed.

(** [_upsert_events] on a non-empty list when the store answers: one select
    on the ids of the first occurrences, one upsert of the first
    occurrences, and the two counts. *)
Lemma upsert_events_ok env (events : list Event) (w : World) :
  events ≠ [] →
  store_select_fault env = None →
  store_upsert_fault env = None →
  let deduped := first_occurrences events in
  let ins := Z.of_nat (length (filter (λ e, table w !! event_id e = None) deduped)) in
  _upsert_events env events w
  = (Ok (ins, Z.of_nat (length deduped) - ins),
     mkWorld (state_file w) (foldl upsert_row (table w) deduped) (ticks w)
             (trace w ++ [StoreSelect (event_id <$> deduped); StoreUpsert deduped])).
Proof.
  intros Hne Hsel Hups deduped ins.
  destruct events as [|e0 rest]; [done |].
  unfold _upsert_events. cbv iota.
  rewrite dedup_events_first_occurrences. fold deduped.
  cbv beta iota zeta delta [bind store_select store_upsert store_call emit ret].
  rewrite Hsel, Hups. cbv beta iota.
  rewrite bool_decide_eq_true_2 by apply first_occurrences_NoDup.
  cbn [table state_file ticks trace].
  rewrite <- app_assoc.
  rewrite (filter_ext_in _ (λ e, table w !! event_id e = None) deduped).
  - reflexivity.
  - intros x Hx. apply existing_ids_spec. by apply list_elem_of_fmap_2.
Qed.

(** C6. The reconciler keeps, of the events it is given, the first
    occurrence of every id, in their order; the batch it upserts has exactly
    one row per distinct id of the input; the two counts it returns add up
    to the size of that batch, which is smaller than the input as soon as an
    id is repeated; and on the empty list it returns (0, 0) and leaves the
    world, trace of store calls included, as it was. *)
Theorem upsert_events_deduplicates env (events : list Event) (w : World) :
  let deduped := dedup_events ∅ [] events in
  deduped = first_occurrences events ∧
  deduped `sublist_of` events ∧
  (∀ pre e post, events = pre ++ e :: post →
                 event_id e ∉ event_id <$> pre → e ∈ deduped) ∧
  NoDup (event_id <$> deduped) ∧
  (∀ i, i ∈ event_id <$> events ↔ i ∈ event_id <$> deduped) ∧
  (¬ NoDup (event_id <$> events) → (length deduped < length events)%nat) ∧
  _upsert_events env [] w = (Ok (0, 0), w) ∧
  (events ≠ [] →
   store_select_fault env = None →
   store_upsert_fault env = None →
   ∃ ins upd w',
     _upsert_events env events w = (Ok (ins, upd), w') ∧
     ins + upd = Z.of_nat (length deduped) ∧
     ins = Z.of_nat (length (filter (λ e, table w !! event_id e = None) deduped)) ∧
     0 <= upd ∧
     trace w' = trace w ++ [StoreSelect (event_id <$> deduped); StoreUpsert deduped] ∧
     (∀ e, e ∈ deduped → table w' !! event_id e = Some e) ∧
     (∀ k, k ∉ event_id <$> events → table w' !! k = table w !! k)).
Proof.
  intros deduped. unfold deduped. rewrite dedup_events_first_occurrences.
  split; [done |].
  split; [apply first_occurrences_sublist |].
  split; [intros pre e post ->; apply first_occurrences_keeps |].
  split; [apply first_occurrences_NoDup |].
  split; [apply first_occurrences_ids |].
  split; [apply first_occurrences_shorter |].
  split; [done |].
  intros Hne Hsel Hups.
  eexists _, _, _. split; [by apply upsert_events_ok |].
  cbn [table trace].
  split; [lia |]. split; [done |].
  split.
  { pose proof (length_filter (λ e, table w !! event_id e = None)
                  (first_occurrences events)). lia. }
  split; [done |].
  split.
  - intros e He. apply upsert_rows_lookup; [apply first_occurrences_NoDup | done].
  - intros k Hk. apply upsert_rows_other. by rewrite <- first_occurrences_ids.
Qed.

(* ===================================================================== *)
(** * Properties: normalisation                                           *)
(* ===================================================================== *)












(* ===================================================================== *)
(** * Properties: the sanitiser                                           *)
(* ===================================================================== *)




(** ** The scanner finds every tag *)






(** ** No tag is left by the substitution *)





(** ** Collapsing and trimming create no tag *)





(** ** The cleaned text is its words joined by single spaces *)











(** ** The substitution, equationally *)





(** ** Text made of markup and white space *)




(** ** The shape of the result *)








Example strip_html_tags :
  strip_html (Some "<p>Hello</p>   <b>World</b>  a<br/>b <> x < y > z")
  = Some "Hello World a b <> x z".
Proof. reflexivity. Qed.

(** A tag between two letters leaves a space between them. *)
Example strip_html_tag_between : strip_html (Some "a<b>c") = Some "a c".
Proof. reflexivity. Qed.

Example strip_html_all_markup : strip_html (Some "<p> </p> <br/>") = None.
Proof. reflexivity. Qed.

(* ===================================================================== *)
(** * Scenarios                                                           *)
(* ===================================================================== *)

Example api_run :
  (run Scenario.env_api 5 Scenario.fresh).1 = Ok (mkResult 2 1 0 "api" None).
Proof. vm_compute. reflexivity. Qed.

Example api_run_trace :
  trace (run Scenario.env_api 5 Scenario.fresh).2
  = [ApiRequest "2025-03-01" 0; Sleep; ApiRequest "2025-03-01" 100;
     StoreSelect ["835ecb17c27fe7d13b0febd7368ee3ea"];
     StoreUpsert
       [mkEvent "835ecb17c27fe7d13b0febd7368ee3ea" "getinvolved" "Chess Night"
                (Some "Weekly chess") "2025-03-05T18:00:00+00:00"
                (Some "2025-03-05T19:00:00+00:00")
                (Some "Student Center, Room 2") "College Ave"
                (Some "Chess Club") (Some "Games, Social")
                "https://rutgers.campuslabs.com/engage/event/1234"
                "2025-03-01T12:00:00+00:00"];
     StateWrite (loaded (run Scenario.env_api 5 Scenario.fresh).2)].
Proof. vm_compute. reflexivity. Qed.

(* ===================================================================== *)
(** * Instances of the theorems                                           *)
(* ===================================================================== *)

Lemma successful_run_reports_source_witness :
  source_used (mkResult 2 2 0 "ical" None) = "ical" ∧
  failures (run Scenario.env_feed 5 Scenario.fresh).2 = 0 ∧
  source_used (mkResult 2 1 0 "api" None) = "api" ∧
  failures (run Scenario.env_api 5 Scenario.fresh).2 = 0.
Proof.
  assert (run Scenario.env_feed 5 Scenario.fresh
          = (Ok (mkResult 2 2 0 "ical" None),
             (run Scenario.env_feed 5 Scenario.fresh).2)) as Hfeed
    by (vm_compute; reflexivity).
  assert (run Scenario.env_api 5 Scenario.fresh
          = (Ok (mkResult 2 1 0 "api" None),
             (run Scenario.env_api 5 Scenario.fresh).2)) as Hapi
    by (vm_compute; reflexivity).
  pose proof (successful_run_reports_source Scenario.env_feed 5 Scenario.fresh
                Scenario.feed_events _
                (_fetch_via_ical Scenario.env_feed
                   (_fetch_via_api Scenario.env_feed 5 Scenario.fresh).2).2
                _ eq_refl Hfeed eq_refl) as [Hical _].
  destruct (Hical (HTTPError (Some 429) "429 Client Error")
                  (_fetch_via_api Scenario.env_feed 5 Scenario.fresh).2)
    as (Hsrc1 & _ & Hn1 & _); [vm_compute; reflexivity .. |].
  pose proof (successful_run_reports_source Scenario.env_api 5 Scenario.fresh
                (match _fetch_via_api Scenario.env_api 5 Scenario.fresh with
                 | (Ok events, _) => events
                 | _ => []
                 end) _
                (_fetch_via_api Scenario.env_api 5 Scenario.fresh).2
                _ eq_refl Hapi eq_refl) as [_ Hprimary].
  destruct Hprimary as (Hsrc2 & _ & Hn2 & _); [vm_compute; reflexivity |].
  split; [exact Hsrc1 |]. split; [exact Hn1 |]. split; [exact Hsrc2 | exact Hn2].
Defined.

Lemma upsert_events_deduplicates_witness :
  (length Scenario.repeated = 3)%nat ∧
  ∃ ins upd w',
    _upsert_events Scenario.env_down Scenario.repeated Scenario.fresh
    = (Ok (ins, upd), w') ∧
    ins + upd = 2 ∧
    table w' !! event_id (Scenario.stored_event 1) = Some (Scenario.stored_event 1).
Proof.
  split; [reflexivity |].
  pose proof (upsert_events_deduplicates Scenario.env_down Scenario.repeated
                Scenario.fresh) as H.
  cbv zeta in H. destruct H as (_ & _ & _ & _ & _ & _ & _ & H).
  destruct H as (ins & upd & w' & Hrun & Hsum & _ & _ & _ & Hrows & _);
    [discriminate | reflexivity | reflexivity |].
  exists ins, upd, w'. split; [exact Hrun |]. split.
  - rewrite Hsum. vm_compute. reflexivity.
  - apply Hrows. vm_compute. left.
Defined.


